(** * Agents, plugins and orchestrator of the multi-agent demo

    A shallow embedding of [demo-2.py] (plugins, [Agent], [Orchestrator])
    and of the chat loop of [demo-1.py], with the properties of the
    specification stated over it.

    Conventions of the embedding.
    - Python [str] values are [string]s of 8-bit characters; [lower] and
      [upper] act on the ASCII letters and leave every other character as
      it is, and [strip] removes the ASCII white space.  On ASCII text they
      are the methods of [str]; the properties that depend on them are
      stated for ASCII text.
    - A method that mutates [self] is a function from the object's state to
      its new state, paired with the outcome of the call ([Return] or
      [Raise]): after a raise the state is the one reached so far, as in
      Python.
    - Objects that are shared by reference (the agents an orchestrator
      holds) live in a heap and are named by their location.
    - The completion endpoint behind [get_chat_message_content] is external
      to the repository: it is a parameter of the development. It receives
      the chat history by reference, so it hands back the history as it
      left it. *)

From Stdlib Require Import Ascii String List Arith Bool Lia.
From stdpp Require Import base option list gmap strings fin_maps.

Local Open Scope string_scope.
Local Open Scope list_scope.

(** ** Strings as the plugins use them *)

Module Str.

(** The line feed, written [\n] in the source. *)
Definition nl : string := String (ascii_of_nat 10) EmptyString.

Definition lower_char (c : ascii) : ascii :=
  let n := nat_of_ascii c in
  if Nat.leb 65 n && Nat.leb n 90 then ascii_of_nat (n + 32) else c.

Definition upper_char (c : ascii) : ascii :=
  let n := nat_of_ascii c in
  if Nat.leb 97 n && Nat.leb n 122 then ascii_of_nat (n - 32) else c.

Fixpoint map_chars (f : ascii -> ascii) (s : string) : string :=
  match s with
  | EmptyString => EmptyString
  | String c t => String (f c) (map_chars f t)
  end.

(** [s.lower()] and [s.upper()]. *)
Definition lower : string -> string := map_chars lower_char.
Definition upper : string -> string := map_chars upper_char.

(** [needle in hay]: [needle] occurs in [hay] as a contiguous run. *)
Fixpoint contains (needle hay : string) : bool :=
  String.prefix needle hay
  || match hay with
     | EmptyString => false
     | String _ t => contains needle t
     end.

(** The text before the first line feed: [s.split("\n")[0]]. *)
Fixpoint first_line (s : string) : string :=
  match s with
  | EmptyString => EmptyString
  | String c t =>
      if Ascii.eqb c (ascii_of_nat 10) then EmptyString
      else String c (first_line t)
  end.

End Str.

(** ** The three plugins *)

Module ResearchPlugin.

Definition python_text : string :=
  "Python is a high-level, interpreted programming language known for its simplicity and readability. It was created by Guido van Rossum and first released in 1991.".

Definition ai_text : string :=
  "Artificial Intelligence (AI) refers to the simulation of human intelligence in machines. It includes machine learning, natural language processing, and computer vision.".

Definition quantum_text : string :=
  "Quantum computing uses quantum-mechanical phenomena like superposition and entanglement to perform operations on data. It has the potential to solve certain problems much faster than classical computers.".

(** The dict literal of the function, in its insertion order, which is
    the order the [for] loop visits. *)
Definition research_data : list (string * string) :=
  [ ("python", python_text);
    ("ai", ai_text);
    ("quantum computing", quantum_text) ].

Definition fallback (topic : string) : string :=
  "Research on '" +:+ topic
    +:+ "': This is a complex topic that requires further investigation.".

(** The loop [for key, value in research_data.items()] with its early
    [return], over any remaining part of the table. *)
Fixpoint scan (table : list (string * string)) (topic_lower : string)
  : option string :=
  match table with
  | [] => None
  | (key, value) :: rest =>
      if Str.contains key topic_lower then Some value
      else scan rest topic_lower
  end.

Definition search_information (topic : string) : string :=
  let topic_lower := Str.lower topic in
  match scan research_data topic_lower with
  | Some value => value
  | None => fallback topic
  end.

End ResearchPlugin.

Module DataAnalysisPlugin.

Definition analyze_data (data_description : string) : string :=
  "Analysis of '" +:+ data_description
    +:+ "': The data shows a positive trend with a 15% increase over the previous period. Key insights include improved performance metrics and user engagement.".

End DataAnalysisPlugin.

Module WritingPlugin.

Definition create_content (topic style : string) : string :=
  "[" +:+ Str.upper style +:+ " CONTENT]" +:+ Str.nl +:+ Str.nl
    +:+ topic +:+ Str.nl +:+ Str.nl
    +:+ "This is a well-crafted piece of content tailored to the "
    +:+ style +:+ " style, covering the key aspects of " +:+ topic
    +:+ " with appropriate depth and clarity.".

End WritingPlugin.

(** A plugin object is an instance of one of the three classes; none of
    them has fields. *)
Inductive Plugin : Type :=
| ResearchPluginObj
| DataAnalysisPluginObj
| WritingPluginObj.

#[global] Instance Plugin_eq_dec : EqDecision Plugin.
Proof. solve_decision. Defined.

(** [plugin.__class__.__name__]. *)
Definition class_name (p : Plugin) : string :=
  match p with
  | ResearchPluginObj => "ResearchPlugin"
  | DataAnalysisPluginObj => "DataAnalysisPlugin"
  | WritingPluginObj => "WritingPlugin"
  end.

(** Arguments of a tool call: a mapping from parameter name to text. *)
Definition lookup_arg (args : list (string * string)) (p : string)
  : option string :=
  snd <$> List.find (fun kv => String.eqb (fst kv) p) args.

(** The functions a plugin exposes, under the names its [@kernel_function]
    decorators declare, each binding its parameters by name.  [None] stands
    for a call that cannot be made: no function of that name, or a declared
    parameter without argument. *)
Definition invoke (p : Plugin) (function_name : string)
    (args : list (string * string)) : option string :=
  match p with
  | ResearchPluginObj =>
      if String.eqb function_name "search_information" then
        topic ← lookup_arg args "topic";
        Some (ResearchPlugin.search_information topic)
      else None
  | DataAnalysisPluginObj =>
      if String.eqb function_name "analyze_data" then
        d ← lookup_arg args "data_description";
        Some (DataAnalysisPlugin.analyze_data d)
      else None
  | WritingPluginObj =>
      if String.eqb function_name "create_content" then
        topic ← lookup_arg args "topic";
        style ← lookup_arg args "style";
        Some (WritingPlugin.create_content topic style)
      else None
  end.


(** ** Conversation *)

Inductive Role : Type := System | User | Assistant | Tool.

#[global] Instance Role_eq_dec : EqDecision Role.
Proof. solve_decision. Defined.

Record ChatMessage : Type := mkMsg { msg_role : Role; msg_content : string }.

#[global] Instance ChatMessage_eq_dec : EqDecision ChatMessage.
Proof. solve_decision. Defined.

(** [ChatHistory()] is the empty list of messages; the three [add_*]
    methods append one message of the given role. *)
Definition ChatHistory_new : list ChatMessage := [].

Definition add_system_message (h : list ChatMessage) (s : string) :=
  h ++ [mkMsg System s].
Definition add_user_message (h : list ChatMessage) (s : string) :=
  h ++ [mkMsg User s].
Definition add_assistant_message (h : list ChatMessage) (s : string) :=
  h ++ [mkMsg Assistant s].

(** ** Exceptions and outcomes *)

(** An exception is identified by the name of its class; the text is its
    message. *)
Record Exn : Type := mkExn { exn_class : string; exn_text : string }.

#[global] Instance Exn_eq_dec : EqDecision Exn.
Proof. solve_decision. Defined.

Inductive Outcome (A : Type) : Type :=
| Return (v : A)
| Raise (e : Exn).
Arguments Return {A} v.
Arguments Raise {A} e.

Definition returned {A} (o : Outcome A) : bool :=
  match o with Return _ => true | Raise _ => false end.

(** [raises cls o]: the call ended by raising an exception of class [cls]. *)
Definition raises {A} (cls : string) (o : Outcome A) : bool :=
  match o with
  | Return _ => false
  | Raise e => String.eqb (exn_class e) cls
  end.

(** Reading an attribute that was never assigned. *)
Definition AttributeError (attr : string) : Exn :=
  mkExn "AttributeError" ("'Agent' object has no attribute '" +:+ attr +:+ "'").

(** ** The kernel of the imported package

    [Kernel], [GoogleAIChatCompletion] and the execution settings come from
    the package the repository imports.  The model keeps what the agents
    use of them: a kernel is two dictionaries, one of services keyed by
    service id and one of plugins keyed by plugin name.  The service
    constructor refuses an empty key, and the kernel accepts a plugin only
    under a name made of letters, digits and underscores. *)

Record GoogleAIChatCompletion : Type := mkService {
  svc_service_id : string;
  gemini_model_id : string;
  api_key : string
}.

(** [GoogleAIChatCompletion(service_id=..., gemini_model_id=...,
    api_key=...)]: without a key the constructor raises. *)
Definition GoogleAIChatCompletion_init
    (service_id gemini_model_id api_key : string)
  : Outcome GoogleAIChatCompletion :=
  if String.eqb api_key "" then
    Raise (mkExn "ServiceInitializationError"
                 "The Google AI API key is required.")
  else Return (mkService service_id gemini_model_id api_key).

Inductive FunctionChoiceBehavior : Type := Auto.

Record PromptExecutionSettings : Type := mkSettings {
  settings_service_id : string;
  function_choice_behavior : option FunctionChoiceBehavior
}.

Record Kernel : Type := mkKernel {
  services : gmap string GoogleAIChatCompletion;
  plugins : gmap string Plugin
}.

Module KernelOps.

(** [Kernel()]. *)
Definition new : Kernel := mkKernel ∅ ∅.

(** [kernel.add_service(service)]: a second service under a service id
    already in use is refused. *)
Definition add_service (k : Kernel) (s : GoogleAIChatCompletion)
  : Outcome Kernel :=
  match services k !! svc_service_id s with
  | Some _ =>
      Raise (mkExn "KernelFunctionAlreadyExistsError"
                   ("Service with service_id '" +:+ svc_service_id s
                      +:+ "' already exists"))
  | None =>
      Return (mkKernel (<[svc_service_id s := s]> (services k)) (plugins k))
  end.

(** [kernel.get_service(service_id)]. *)
Definition get_service (k : Kernel) (sid : string)
  : Outcome GoogleAIChatCompletion :=
  match services k !! sid with
  | Some s => Return s
  | None => Raise (mkExn "KernelServiceNotFoundError" sid)
  end.

(** [kernel.get_prompt_execution_settings_from_service_id(service_id)]:
    a fresh settings object for the service of that id. *)
Definition get_prompt_execution_settings_from_service_id
    (k : Kernel) (sid : string) : Outcome PromptExecutionSettings :=
  match get_service k sid with
  | Return _ => Return (mkSettings sid None)
  | Raise e => Raise e
  end.

(** The characters of a plugin name: the pattern [^[0-9A-Za-z_]+$]. *)
Definition name_char (c : ascii) : bool :=
  let n := nat_of_ascii c in
  (Nat.leb 48 n && Nat.leb n 57) || (Nat.leb 65 n && Nat.leb n 90)
  || (Nat.leb 97 n && Nat.leb n 122) || Nat.eqb n 95.

Fixpoint all_chars (f : ascii -> bool) (s : string) : bool :=
  match s with
  | EmptyString => true
  | String c t => f c && all_chars f t
  end.

Definition valid_name (s : string) : bool :=
  negb (String.eqb s "") && all_chars name_char s.

(** The name a plugin object is filed under: the one given, or the name
    of its class when none is given. *)
Definition filed_name (p : Plugin) (plugin_name : string) : string :=
  if String.eqb plugin_name "" then class_name p else plugin_name.

(** [kernel.add_plugin(plugin, plugin_name)]: the name is validated, then
    the assignment [plugins[name] = plugin] is made; a name that does not
    fit the pattern raises and leaves the kernel as it was. *)
Definition add_plugin (k : Kernel) (p : Plugin) (plugin_name : string)
  : Outcome Kernel :=
  let n := filed_name p plugin_name in
  if valid_name n then
    Return (mkKernel (services k) (<[n := p]> (plugins k)))
  else
    Raise (mkExn "FunctionInitializationError"
                 ("invalid plugin name: " +:+ n)).

End KernelOps.

(** ** Agent *)

(** The attributes [service_id] and [chat_service] exist only once
    [initialize] has assigned them. *)
Record Agent : Type := mkAgent {
  name : string;
  role : string;
  system_message : string;
  kernel : Kernel;
  chat_history : list ChatMessage;
  service_id : option string;
  chat_service : option GoogleAIChatCompletion
}.

Definition set_kernel (a : Agent) (k : Kernel) : Agent :=
  mkAgent (name a) (role a) (system_message a) k (chat_history a)
          (service_id a) (chat_service a).

Definition set_chat_history (a : Agent) (h : list ChatMessage) : Agent :=
  mkAgent (name a) (role a) (system_message a) (kernel a) h
          (service_id a) (chat_service a).

Definition set_service_id (a : Agent) (sid : string) : Agent :=
  mkAgent (name a) (role a) (system_message a) (kernel a) (chat_history a)
          (Some sid) (chat_service a).

Definition set_chat_service (a : Agent) (s : GoogleAIChatCompletion) : Agent :=
  mkAgent (name a) (role a) (system_message a) (kernel a) (chat_history a)
          (service_id a) (Some s).

(** [Agent.__init__]. *)
Definition Agent_init (name role system_message : string) : Agent :=
  mkAgent name role system_message KernelOps.new
          (add_system_message ChatHistory_new system_message) None None.

Definition default_service_id : string := "gemini-chat".

(** [Agent.initialize]. *)
Definition initialize (a : Agent) (gemini_api_key service_id : string)
  : Agent * Outcome unit :=
  match GoogleAIChatCompletion_init service_id "gemini-2.5-flash"
          gemini_api_key with
  | Raise e => (a, Raise e)
  | Return s =>
      match KernelOps.add_service (kernel a) s with
      | Raise e => (a, Raise e)
      | Return k =>
          let a1 := set_service_id (set_kernel a k) service_id in
          match KernelOps.get_service (kernel a1) service_id with
          | Raise e => (a1, Raise e)
          | Return cs => (set_chat_service a1 cs, Return tt)
          end
      end
  end.

(** [Agent.add_plugin]. *)
Definition add_plugin (a : Agent) (p : Plugin) (plugin_name : string)
  : Agent * Outcome unit :=
  match KernelOps.add_plugin (kernel a) p plugin_name with
  | Return k => (set_kernel a k, Return tt)
  | Raise e => (a, Raise e)
  end.

(** The completion endpoint: given the service object, the chat history,
    the settings and the kernel it was handed, it leaves a chat history
    behind and either returns the text of its answer or raises. *)
Definition Endpoint : Type :=
  GoogleAIChatCompletion -> list ChatMessage -> PromptExecutionSettings ->
  option Kernel -> list ChatMessage * Outcome string.

Section WithEndpoint.

Variable get_chat_message_content : Endpoint.

(** [Agent.process]. *)
Definition process (a : Agent) (message : string) : Agent * Outcome string :=
  let a1 := set_chat_history a (add_user_message (chat_history a) message) in
  match service_id a1 with
  | None => (a1, Raise (AttributeError "service_id"))
  | Some sid =>
      match KernelOps.get_prompt_execution_settings_from_service_id
              (kernel a1) sid with
      | Raise e => (a1, Raise e)
      | Return execution_settings =>
          let execution_settings :=
            mkSettings (settings_service_id execution_settings) (Some Auto) in
          match chat_service a1 with
          | None => (a1, Raise (AttributeError "chat_service"))
          | Some cs =>
              let '(h, response) :=
                get_chat_message_content cs (chat_history a1)
                  execution_settings (Some (kernel a1)) in
              let a2 := set_chat_history a1 h in
              match response with
              | Raise e => (a2, Raise e)
              | Return text =>
                  (set_chat_history a2 (add_assistant_message h text),
                   Return text)
              end
          end
      end
  end.

(** A method call on an agent, and the state it leaves, whether the call
    returned or raised. *)
Inductive Call : Type :=
| CallInitialize (gemini_api_key service_id : string)
| CallAddPlugin (p : Plugin) (plugin_name : string)
| CallProcess (message : string).

Definition call (a : Agent) (c : Call) : Agent :=
  match c with
  | CallInitialize key sid => fst (initialize a key sid)
  | CallAddPlugin p n => fst (add_plugin a p n)
  | CallProcess m => fst (process a m)
  end.

Definition calls (a : Agent) (cs : list Call) : Agent :=
  fold_left call cs a.

End WithEndpoint.

(** ** Objects held by reference *)

Definition loc : Type := nat.

(** The store of agent objects: every reference a Python program holds
    designates an object. *)
Definition Heap : Type := loc -> Agent.

Definition heap_set (h : Heap) (l : loc) (a : Agent) : Heap :=
  fun l' => if decide (l' = l) then a else h l'.

(** A method of [Agent] called through a reference. *)
Definition on_agent {A} (f : Agent -> Agent * Outcome A) (h : Heap) (l : loc)
  : Heap * Outcome A :=
  let '(a, r) := f (h l) in (heap_set h l a, r).

(** ** A dict in insertion order

    Assignment to a key already present replaces its value where it is;
    a new key goes last. *)
Section Dict.

Context {V : Type}.

Fixpoint dict_set (d : list (string * V)) (k : string) (v : V)
  : list (string * V) :=
  match d with
  | [] => [(k, v)]
  | (k', v') :: rest =>
      if decide (k' = k) then (k, v) :: rest
      else (k', v') :: dict_set rest k v
  end.

(** [d.get(k)]: [None] when the key is absent. *)
Fixpoint dict_get (d : list (string * V)) (k : string) : option V :=
  match d with
  | [] => None
  | (k', v') :: rest => if decide (k' = k) then Some v' else dict_get rest k
  end.

Definition dict_keys (d : list (string * V)) : list string := map fst d.
Definition dict_values (d : list (string * V)) : list V := map snd d.

End Dict.

(** ** Orchestrator *)

Record Orchestrator : Type := mkOrchestrator { agents : list (string * loc) }.

(** [Orchestrator.__init__]. *)
Definition Orchestrator_init : Orchestrator := mkOrchestrator [].

(** [Orchestrator.add_agent]: the key is the agent's name at the time of
    the call. *)
Definition add_agent (h : Heap) (o : Orchestrator) (agent : loc)
  : Orchestrator :=
  mkOrchestrator (dict_set (agents o) (name (h agent)) agent).

(** [Orchestrator.get_agent]. *)
Definition get_agent (o : Orchestrator) (n : string) : option loc :=
  dict_get (agents o) n.

(** One entry of [list_agents]: the dict with keys "name" and "role". *)
Record AgentSummary : Type := mkSummary {
  summary_name : string;
  summary_role : string
}.

#[global] Instance AgentSummary_eq_dec : EqDecision AgentSummary.
Proof. solve_decision. Defined.

(** [Orchestrator.list_agents]. *)
Definition list_agents (h : Heap) (o : Orchestrator) : list AgentSummary :=
  map (fun agent => mkSummary (name (h agent)) (role (h agent)))
      (dict_values (agents o)).

Definition add_agents (h : Heap) (o : Orchestrator) (ls : list loc)
  : Orchestrator :=
  fold_left (add_agent h) ls o.

(** What [add_agent] maintains as long as no agent is renamed: the keys
    are distinct, and each is the name of the agent it leads to. *)
Definition orch_wf (h : Heap) (o : Orchestrator) : Prop :=
  NoDup (dict_keys (agents o))
  /\ Forall (fun kv => name (h (snd kv)) = fst kv) (agents o).

(** ** The chat loop of [demo-1.py]

    One pass of the loop body for an input that is neither "exit" nor
    empty: the history is the local [chat_history], and the call is made
    without kernel. *)
Module Demo1.

Definition system_prompt : string :=
  "You are Python developer and your name Alex, you will only answers queries python.".

Definition initial_history : list ChatMessage :=
  add_system_message ChatHistory_new system_prompt.

Definition gemini (gemini_api_key : string) : GoogleAIChatCompletion :=
  mkService "gemini" "gemini-2.5-flash" gemini_api_key.

Definition turn (get_chat_message_content : Endpoint)
    (chat_service : GoogleAIChatCompletion)
    (chat_history : list ChatMessage) (user_input : string)
  : list ChatMessage * Outcome string :=
  let h1 := add_user_message chat_history user_input in
  let '(h2, response) :=
    get_chat_message_content chat_service h1 (mkSettings "gemini" None) None in
  match response with
  | Raise e => (h2, Raise e)
  | Return text => (add_assistant_message h2 text, Return text)
  end.

End Demo1.

(** ** The objects [main] of [demo-2.py] builds *)

Module Main.

Definition research_agent (google_api_key : string) : Agent :=
  let a := Agent_init "ResearchAgent" "Research Specialist"
    "You are a research specialist. Your job is to gather and summarize information on various topics. Use the search_information tool when needed." in
  let a := fst (initialize a google_api_key default_service_id) in
  fst (add_plugin a ResearchPluginObj "ResearchPlugin").

Definition analyst_agent (google_api_key : string) : Agent :=
  let a := Agent_init "AnalystAgent" "Data Analyst"
    "You are a data analyst. Your job is to analyze data and provide insights. Use the analyze_data tool when needed." in
  let a := fst (initialize a google_api_key default_service_id) in
  fst (add_plugin a DataAnalysisPluginObj "DataAnalysisPlugin").

Definition writer_agent (google_api_key : string) : Agent :=
  let a := Agent_init "WriterAgent" "Content Writer"
    "You are a professional content writer. Your job is to create well-written content on various topics. Use the create_content tool when needed." in
  let a := fst (initialize a google_api_key default_service_id) in
  fst (add_plugin a WritingPluginObj "WritingPlugin").

Definition coordinator_agent (google_api_key : string) : Agent :=
  let a := Agent_init "Coordinator" "Task Coordinator"
    ("You are a coordinator that routes tasks to specialized agents. "
     +:+ "You have access to three agents:" +:+ Str.nl
     +:+ "1. ResearchAgent - for research and information gathering" +:+ Str.nl
     +:+ "2. AnalystAgent - for data analysis" +:+ Str.nl
     +:+ "3. WriterAgent - for content creation" +:+ Str.nl +:+ Str.nl
     +:+ "When a user asks a question, determine which agent(s) should handle it and explain your routing decision.") in
  fst (initialize a google_api_key default_service_id).

(** The four agents, in their order of construction. *)
Definition heap (google_api_key : string) : Heap :=
  fun l =>
    match l with
    | 0 => research_agent google_api_key
    | 1 => analyst_agent google_api_key
    | 2 => writer_agent google_api_key
    | _ => coordinator_agent google_api_key
    end.

Definition orchestrator (google_api_key : string) : Orchestrator :=
  add_agents (heap google_api_key) Orchestrator_init [0; 1; 2; 3].

End Main.

(** ** Endpoints *)

(** An endpoint that appends one [Tool] message per given text to the
    history it is handed and then ends with the given outcome. *)
Definition scripted (tool_results : list string) (answer : Outcome string)
  : Endpoint :=
  fun _ h _ _ => (h ++ map (mkMsg Tool) tool_results, answer).

(** An endpoint that cannot be reached: it raises at once. *)
Definition unreachable_endpoint : Endpoint :=
  scripted [] (Raise (mkExn "ServiceResponseException" "connection refused")).

(** An endpoint whose single call runs [n] tool rounds before it answers. *)
Definition tool_rounds (n : nat) : Endpoint :=
  scripted (replicate n "tool result") (Return "done").


(** What an endpoint may do to the history it shares with the agent: it
    only appends, and only messages of the allowed roles. *)
Definition appends_only (allowed : Role -> bool) (ep : Endpoint) : Prop :=
  forall cs h st k,
    exists added,
      fst (ep cs h st k) = h ++ added
      /\ forallb (fun m => allowed (msg_role m)) added = true.

Definition is_tool (r : Role) : bool := bool_decide (r = Tool).
Definition not_system (r : Role) : bool := negb (bool_decide (r = System)).

(** An agent on which [initialize] has run: both attributes are set and
    the kernel knows the service id. *)
Definition ready (a : Agent) (sid : string) (cs : GoogleAIChatCompletion)
  : Prop :=
  service_id a = Some sid
  /\ chat_service a = Some cs
  /\ services (kernel a) !! sid = Some cs.

(** ** Shape of a conversation *)

Inductive Phase : Type := Idle | AwaitingCompletion.

(** The turns of complete round trips: each is one [User] turn, any number
    of [Tool] turns, one [Assistant] turn. *)
Fixpoint interleaved (ph : Phase) (h : list ChatMessage) : bool :=
  match h with
  | [] => match ph with Idle => true | AwaitingCompletion => false end
  | m :: rest =>
      match ph, msg_role m with
      | Idle, User => interleaved AwaitingCompletion rest
      | AwaitingCompletion, Tool => interleaved AwaitingCompletion rest
      | AwaitingCompletion, Assistant => interleaved Idle rest
      | _, _ => false
      end
  end.

Definition count_role (r : Role) (h : list ChatMessage) : nat :=
  length (filter (fun m => msg_role m = r) h).

(** The messages of the [process] calls of a sequence, and whether each of
    these calls returned. *)
Definition process_messages (cs : list Call) : list string :=
  omap (fun c => match c with CallProcess m => Some m | _ => None end) cs.

Fixpoint processes_return (ep : Endpoint) (a : Agent) (cs : list Call) : bool :=
  match cs with
  | [] => true
  | c :: rest =>
      match c with
      | CallProcess m => returned (snd (process ep a m))
      | _ => true
      end
      && processes_return ep (call ep a c) rest
  end.


(** ** The sentences of the specification that the code departs from *)


(** The tool loop is cut at [cap] rounds by a [ToolLoopExceededError]: one
    call of [process] either adds at most [cap] tool results or raises it. *)
Definition tool_loop_capped (cap : nat) (ep : Endpoint) (a : Agent)
    (m : string) : Prop :=
  count_role Tool (chat_history (fst (process ep a m)))
    <= count_role Tool (chat_history a) + cap
  \/ raises "ToolLoopExceededError" (snd (process ep a m)) = true.

(** A second registration under a name in use fails with
    [DuplicateToolError]. *)
Definition duplicate_rejected (a : Agent) (p : Plugin) (n : string) : Prop :=
  is_Some (plugins (kernel a) !! n) ->
  raises "DuplicateToolError" (snd (add_plugin a p n)) = true.

(** A failure of the endpoint call made by [process] surfaces as
    [CompletionServiceError], the conversation being the earlier one plus
    the user turn. *)
Definition failure_wrapped (ep : Endpoint) (a : Agent) (m : string) : Prop :=
  forall sid cs,
    ready a sid cs ->
    returned (snd (ep cs (add_user_message (chat_history a) m)
                      (mkSettings sid (Some Auto)) (Some (kernel a)))) = false ->
    raises "CompletionServiceError" (snd (process ep a m)) = true
    /\ chat_history (fst (process ep a m)) = chat_history a ++ [mkMsg User m].

(** ** Text handling of the two interactive loops

    As for [lower] and [upper], the white space is the ASCII one:
    [str.strip()] removes the characters 9 to 13 (tab, line feed, vertical
    tab, form feed, carriage return), 28 to 31 (the separators) and 32
    (space) from both ends. *)

Module Text.

Definition is_space (c : ascii) : bool :=
  let n := nat_of_ascii c in
  (Nat.leb 9 n && Nat.leb n 13) || (Nat.leb 28 n && Nat.leb n 32).

Fixpoint lstrip (s : string) : string :=
  match s with
  | EmptyString => EmptyString
  | String c t => if is_space c then lstrip t else s
  end.

Fixpoint rstrip (s : string) : string :=
  match s with
  | EmptyString => EmptyString
  | String c t =>
      match rstrip t with
      | EmptyString => if is_space c then EmptyString else String c EmptyString
      | t' => String c t'
      end
  end.

(** [s.strip()]. *)
Definition strip (s : string) : string := rstrip (lstrip s).

(** [s.startswith(prefix)]. *)
Definition startswith (s prefix : string) : bool := String.prefix prefix s.

(** [s.split(sep)] for a separator of one character: the pieces between
    the separators, empty pieces included; never the empty list. *)
Fixpoint split (sep : ascii) (s : string) : list string :=
  match s with
  | EmptyString => [EmptyString]
  | String c t =>
      if Ascii.eqb c sep then EmptyString :: split sep t
      else
        match split sep t with
        | [] => [String c EmptyString]
        | piece :: pieces => String c piece :: pieces
        end
  end.

(** A text of ASCII characters only.  On such a text [lower], [upper]
    and [strip] are Python's [str.lower], [str.upper] and [str.strip];
    the properties that go through them are stated for ASCII text. *)
Fixpoint is_ascii (s : string) : bool :=
  match s with
  | EmptyString => true
  | String c t => Nat.ltb (nat_of_ascii c) 128 && is_ascii t
  end.

(** A text given by the bytes of its UTF-8 encoding. *)
Definition of_bytes (codes : list nat) : string :=
  fold_right (fun n s => String (ascii_of_nat n) s) EmptyString codes.

End Text.

(** [input()] at the end of the input. *)
Definition EOFError : Exn := mkExn "EOFError" "EOF when reading a line".

(** A list index out of range. *)
Definition IndexError : Exn := mkExn "IndexError" "list index out of range".

(** ** The interactive loop of [demo-2.py]

    The state of [main] once the agents are built: the agents, the
    variable [current_agent] and what has been written to the standard
    output, one entry per write.  The orchestrator no longer changes. *)

Record Shell : Type := mkShell {
  sh_heap : Heap;
  current_agent : loc;
  written : list string
}.

Inductive Flow : Type := Next | Stop.

Module Shell.

(** The marks of the three messages, as the source file has them. *)
Definition switched_mark : string :=
  Text.of_bytes [195; 162; 197; 147; 226; 128; 156].
Definition not_found_mark : string :=
  Text.of_bytes [195; 162; 197; 147; 226; 128; 148].
Definition reply_mark : string :=
  Text.of_bytes [195; 176; 197; 184; 194; 164; 226; 128; 147].

(** [print(text, end="")], and the prompt that [input] writes. *)
Definition write (st : Shell) (text : string) : Shell :=
  mkShell (sh_heap st) (current_agent st) (written st ++ [text]).

(** [print(text)]. *)
Definition print (st : Shell) (text : string) : Shell :=
  write st (text +:+ Str.nl).

Definition prompt (st : Shell) : string :=
  "You (talking to " +:+ name (sh_heap st (current_agent st)) +:+ "): ".

Definition set_current (st : Shell) (agent : loc) : Shell :=
  mkShell (sh_heap st) agent (written st).

Definition set_heap (st : Shell) (h : Heap) : Shell :=
  mkShell h (current_agent st) (written st).

(** One pass of the [while True] loop on the line that [input] reads. *)
Definition step (ep : Endpoint) (orchestrator : Orchestrator)
    (st : Shell) (line : string) : Shell * Outcome Flow :=
  let st := write st (prompt st) in
  let user_input := Text.strip line in
  if String.eqb (Str.lower user_input) "exit" then
    (print st "Goodbye!", Return Stop)
  else if Text.startswith user_input "switch:" then
    match Text.split ":" user_input !! 1 with
    | None => (st, Raise IndexError)
    | Some piece =>
        let agent_name := Text.strip piece in
        match get_agent orchestrator agent_name with
        | Some agent =>
            (print (set_current st agent)
               (switched_mark +:+ " Switched to " +:+ agent_name +:+ Str.nl),
             Return Next)
        | None =>
            (print st
               (not_found_mark +:+ " Agent '" +:+ agent_name
                  +:+ "' not found" +:+ Str.nl),
             Return Next)
        end
    end
  else if String.eqb user_input "" then (st, Return Next)
  else
    let st :=
      write st (Str.nl +:+ reply_mark +:+ " "
                  +:+ name (sh_heap st (current_agent st)) +:+ ": ") in
    let '(h, response) :=
      on_agent (fun a => process ep a user_input)
               (sh_heap st) (current_agent st) in
    match response with
    | Raise e => (set_heap st h, Raise e)
    | Return text => (print (set_heap st h) (text +:+ Str.nl), Return Next)
    end.

(** The loop over the lines of the standard input; when they run out,
    [input] writes its prompt and raises. *)
Fixpoint loop (ep : Endpoint) (orchestrator : Orchestrator)
    (st : Shell) (inputs : list string) : Shell * Outcome unit :=
  match inputs with
  | [] => (write st (prompt st), Raise EOFError)
  | line :: rest =>
      match step ep orchestrator st line with
      | (st', Return Stop) => (st', Return tt)
      | (st', Return Next) => loop ep orchestrator st' rest
      | (st', Raise e) => (st', Raise e)
      end
  end.

(** [main]: the four agents, the coordinator being the current one.
    Without a key the first [initialize] raises and [main] ends there,
    before the loop. *)
Definition main (ep : Endpoint) (google_api_key : string)
    (inputs : list string) : Shell * Outcome unit :=
  let st := mkShell (Main.heap google_api_key) 3 [] in
  match GoogleAIChatCompletion_init default_service_id "gemini-2.5-flash"
          google_api_key with
  | Raise e => (st, Raise e)
  | Return _ => loop ep (Main.orchestrator google_api_key) st inputs
  end.

(** Whether a line is a directive, and the message it carries otherwise. *)
Definition is_exit (line : string) : bool :=
  String.eqb (Str.lower (Text.strip line)) "exit".

Definition is_switch (line : string) : bool :=
  negb (is_exit line) && Text.startswith (Text.strip line) "switch:".

Definition is_message (line : string) : bool :=
  negb (is_exit line) && negb (Text.startswith (Text.strip line) "switch:")
  && negb (String.eqb (Text.strip line) "").

End Shell.

(** ** The loop of [demo-1.py] *)

Module Demo1Main.

Record State : Type := mkState {
  chat_history : list ChatMessage;
  written : list string
}.

(** The body of the [while True] loop, then the loop over the lines of
    the standard input. *)
Fixpoint loop (ep : Endpoint) (chat_service : GoogleAIChatCompletion)
    (st : State) (inputs : list string) : State * Outcome unit :=
  let st := mkState (chat_history st) (written st ++ ["User: "]) in
  match inputs with
  | [] => (st, Raise EOFError)
  | line :: rest =>
      let user_input := Text.strip line in
      if String.eqb (Str.lower user_input) "exit" then
        (mkState (chat_history st) (written st ++ ["bye" +:+ Str.nl]),
         Return tt)
      else if String.eqb user_input "" then loop ep chat_service st rest
      else
        match Demo1.turn ep chat_service (chat_history st) user_input with
        | (h, Raise e) => (mkState h (written st), Raise e)
        | (h, Return text) =>
            loop ep chat_service
              (mkState h (written st ++ ["Agent: " +:+ text +:+ Str.nl]))
              rest
        end
  end.

(** [main]: without a key the service constructor raises, before the
    history exists. *)
Definition main (ep : Endpoint) (gemini_api_key : string)
    (inputs : list string) : State * Outcome unit :=
  match GoogleAIChatCompletion_init "gemini" "gemini-2.5-flash"
          gemini_api_key with
  | Raise e => (mkState [] [], Raise e)
  | Return chat_service =>
      loop ep chat_service (mkState Demo1.initial_history []) inputs
  end.

(** The messages a run sends: the stripped lines before the first exit
    line, the blank ones left out. *)
Fixpoint messages (inputs : list string) : list string :=
  match inputs with
  | [] => []
  | line :: rest =>
      let user_input := Text.strip line in
      if String.eqb (Str.lower user_input) "exit" then []
      else if String.eqb user_input "" then messages rest
      else user_input :: messages rest
  end.

End Demo1Main.

(** ** Counting over a sequence of calls *)

(** The [process] calls of a sequence that returned. *)
Fixpoint returned_count (ep : Endpoint) (a : Agent) (cs : list Call) : nat :=
  match cs with
  | [] => 0
  | c :: rest =>
      match c with
      | CallProcess m => if returned (snd (process ep a m)) then 1 else 0
      | _ => 0
      end
      + returned_count ep (call ep a c) rest
  end.

(** The registrations of a sequence that the kernel accepts, in order,
    each with the name it is filed under. *)
Definition registrations (cs : list Call) : list (string * Plugin) :=
  omap (fun c => match c with
                 | CallAddPlugin p n =>
                     if KernelOps.valid_name (KernelOps.filed_name p n)
                     then Some (KernelOps.filed_name p n, p)
                     else None
                 | _ => None
                 end) cs.

Definition no_initialize (cs : list Call) : bool :=
  forallb (fun c => match c with CallInitialize _ _ => false | _ => true end) cs.

Definition summary (h : Heap) (agent : loc) : AgentSummary :=
  mkSummary (name (h agent)) (role (h agent)).

(** * Properties *)

(** ** Plugins *)

(** A topic that holds no key of the table gets the fallback text, which
    quotes the topic as it was given. *)
Lemma search_information_fallback topic :
  forallb (fun kv => negb (Str.contains (fst kv) (Str.lower topic)))
          ResearchPlugin.research_data = true ->
  ResearchPlugin.search_information topic = ResearchPlugin.fallback topic.
Proof.
  unfold ResearchPlugin.search_information, ResearchPlugin.research_data.
  cbn [forallb ResearchPlugin.scan fst].
  intros H. repeat (apply andb_prop in H as [?%negb_true_iff H]).
  by repeat match goal with E : Str.contains _ _ = false |- _ => rewrite E; clear E end.
Qed.

Example search_information_rust :
  ResearchPlugin.search_information "Rust"
  = "Research on 'Rust': This is a complex topic that requires further investigation.".
Proof. reflexivity. Qed.

(** C1.  [search_information] with topic "python" returns the canned text
    for "python".  With topic "blockchain" it does not reach the fallback:
    the key "ai" occurs inside "blockchain" (blockch-ai-n), so the loop
    returns the canned text for "ai", which does not mention the topic. *)
Theorem search_information_python_blockchain :
  invoke ResearchPluginObj "search_information" [("topic", "python")]
    = Some ResearchPlugin.python_text
  /\ Str.contains "ai" (Str.lower "blockchain") = true
  /\ invoke ResearchPluginObj "search_information" [("topic", "blockchain")]
    = Some ResearchPlugin.ai_text
  /\ ResearchPlugin.ai_text <> ResearchPlugin.fallback "blockchain"
  /\ Str.contains "blockchain" ResearchPlugin.ai_text = false.
Proof. repeat split; try reflexivity. discriminate. Qed.

(** The first line of the content is the bracketed label, whatever the
    topic, for a style without line feed. *)
Lemma first_line_app_nl s t :
  Str.contains Str.nl s = false ->
  Str.first_line (s +:+ Str.nl +:+ t) = s.
Proof.
  induction s as [|c s IH]; intros H.
  - reflexivity.
  - cbn in H. apply orb_false_iff in H as [Hc Hs].
    change (String c s +:+ Str.nl +:+ t) with (String c (s +:+ Str.nl +:+ t)).
    cbn [Str.first_line].
    destruct (Ascii.eqb c (ascii_of_nat 10)) eqn:E.
    + apply Ascii.eqb_eq in E. subst c. cbn in Hc.
      destruct s; discriminate.
    + f_equal. by apply IH.
Qed.

Lemma prefix_nil s : String.prefix "" s = true.
Proof. by destruct s. Qed.

Lemma contains_char_app c a b :
  Str.contains (String c "") (a +:+ b)
  = Str.contains (String c "") a || Str.contains (String c "") b.
Proof.
  induction a as [|x a IH].
  - reflexivity.
  - change (String x a +:+ b) with (String x (a +:+ b)).
    cbn [Str.contains String.prefix]. rewrite IH.
    destruct (ascii_dec c x); rewrite ?prefix_nil; [reflexivity|].
    reflexivity.
Qed.

Lemma append_assoc (a b c : string) : (a +:+ b) +:+ c = a +:+ b +:+ c.
Proof.
  induction a as [|x a IH]; [reflexivity|].
  change (String x ((a +:+ b) +:+ c) = String x (a +:+ b +:+ c)).
  by rewrite IH.
Qed.

Lemma create_content_first_line topic style :
  Str.contains Str.nl (Str.upper style) = false ->
  Str.first_line (WritingPlugin.create_content topic style)
  = "[" +:+ Str.upper style +:+ " CONTENT]".
Proof.
  intros H. unfold WritingPlugin.create_content.
  rewrite <- (append_assoc (Str.upper style) " CONTENT]").
  rewrite <- (append_assoc "[" (Str.upper style +:+ " CONTENT]")).
  rewrite first_line_app_nl; [reflexivity|].
  unfold Str.nl in *. rewrite !contains_char_app, H. reflexivity.
Qed.

(** C8, as the specification words it, fails: the first line of the text
    for topic "AI" and style "casual" is not the style in upper case
    between brackets, [[CASUAL]]; the template puts the word CONTENT after
    the style. *)
Lemma create_content_label_not_bare_style :
  invoke WritingPluginObj "create_content"
         [("topic", "AI"); ("style", "casual")]
    = Some (WritingPlugin.create_content "AI" "casual")
  /\ Str.first_line (WritingPlugin.create_content "AI" "casual")
     <> "[" +:+ Str.upper "casual" +:+ "]"
  /\ Str.first_line (WritingPlugin.create_content "AI" "casual")
     <> "[CASUAL]".
Proof. repeat split; discriminate. Qed.

(** C8, amended.  [create_content] with topic "AI" and style "casual"
    returns a text whose first line is the style in upper case followed
    by the word CONTENT, between brackets, that is [[CASUAL CONTENT]], and
    in which "AI" occurs. *)
Theorem create_content_AI_casual :
  exists text,
    invoke WritingPluginObj "create_content"
           [("topic", "AI"); ("style", "casual")] = Some text
    /\ Str.upper "casual" = "CASUAL"
    /\ Str.first_line text = "[" +:+ Str.upper "casual" +:+ " CONTENT]"
    /\ Str.first_line text = "[CASUAL CONTENT]"
    /\ Str.contains "AI" text = true.
Proof. eexists. repeat split. Qed.

(** ** One call of [process] *)

Section ProcessFacts.

Variable ep : Endpoint.

(** On an initialised agent, [process] is one call of the endpoint on
    the history extended by the user turn, with tool choice set to
    [Auto]; its outcome is the outcome of that call, and the assistant
    turn is appended only when the call returned. *)
Lemma process_ready a sid cs m :
  ready a sid cs ->
  process ep a m =
    let '(h, out) :=
      ep cs (add_user_message (chat_history a) m)
         (mkSettings sid (Some Auto)) (Some (kernel a)) in
    (set_chat_history a
       (match out with
        | Return text => add_assistant_message h text
        | Raise _ => h
        end),
     out).
Proof.
  intros (Hsid & Hcs & Hk). unfold process. cbn.
  rewrite Hsid.
  unfold KernelOps.get_prompt_execution_settings_from_service_id,
    KernelOps.get_service.
  rewrite Hk, Hcs. cbn.
  destruct (ep cs _ _ _) as [h [text|e]]; reflexivity.
Qed.

(** [process] writes no attribute but [chat_history]. *)
Lemma process_frame a m :
  fst (process ep a m)
  = set_chat_history a (chat_history (fst (process ep a m))).
Proof.
  unfold process. cbn.
  destruct (service_id a); [|reflexivity].
  destruct (KernelOps.get_prompt_execution_settings_from_service_id _ _);
    [|reflexivity].
  destruct (chat_service a); [|reflexivity].
  destruct (ep _ _ _ _) as [h [text|e]]; reflexivity.
Qed.

(** What one call leaves in the conversation: the user turn, then what
    the endpoint appended, then the assistant turn if the call returned. *)
Lemma process_history allowed a m :
  appends_only allowed ep ->
  exists added,
    forallb (fun x => allowed (msg_role x)) added = true
    /\ chat_history (fst (process ep a m))
       = chat_history a ++ mkMsg User m :: added
           ++ match snd (process ep a m) with
              | Return text => [mkMsg Assistant text]
              | Raise _ => []
              end.
Proof.
  intros Hep. unfold process. cbn.
  destruct (service_id a);
    [|exists []; split; [reflexivity|]; cbn; reflexivity].
  destruct (KernelOps.get_prompt_execution_settings_from_service_id _ _)
    as [st|e]; [|exists []; split; [reflexivity|]; cbn; reflexivity].
  destruct (chat_service a) as [cs|];
    [|exists []; split; [reflexivity|]; cbn; reflexivity].
  match goal with
  | |- context [ep ?c ?h ?s ?k] =>
      destruct (Hep c h s k) as (added & Hh & Hall);
      destruct (ep c h s k) as [h' out]
  end.
  cbn in Hh. subst h'. exists added. split; [exact Hall|].
  unfold add_user_message, add_assistant_message.
  destruct out as [text|e]; cbn; rewrite <- ?app_assoc, ?app_nil_r;
    reflexivity.
Qed.

Lemma initialize_history a key sid :
  chat_history (fst (initialize a key sid)) = chat_history a.
Proof.
  unfold initialize.
  destruct (GoogleAIChatCompletion_init _ _ _); [|reflexivity].
  destruct (KernelOps.add_service _ _); [|reflexivity].
  destruct (KernelOps.get_service _ _); reflexivity.
Qed.

Lemma add_plugin_history a p n :
  chat_history (fst (add_plugin a p n)) = chat_history a.
Proof. unfold add_plugin. by destruct (KernelOps.add_plugin _ _ _). Qed.

End ProcessFacts.

Lemma count_role_app r h1 h2 :
  count_role r (h1 ++ h2) = count_role r h1 + count_role r h2.
Proof. unfold count_role. by rewrite filter_app, length_app. Qed.

Lemma count_role_tools texts :
  count_role Tool (map (mkMsg Tool) texts) = length texts.
Proof.
  unfold count_role. induction texts as [|t ts IH]; [reflexivity|].
  cbn [map]. rewrite filter_cons_True by reflexivity. cbn. by rewrite IH.
Qed.

Lemma ready_research_agent key :
  key <> "" ->
  ready (Main.research_agent key) default_service_id
        (mkService default_service_id "gemini-2.5-flash" key).
Proof.
  intros Hkey. unfold Main.research_agent, initialize,
    GoogleAIChatCompletion_init.
  destruct (String.eqb key "") eqn:E; [by apply String.eqb_eq in E|].
  repeat split.
Qed.

Lemma ready_research_agent_k :
  ready (Main.research_agent "k") default_service_id
        (mkService default_service_id "gemini-2.5-flash" "k").
Proof. repeat split. Qed.

(** ** Frame of [process] *)


(** ** Failure of the endpoint *)

(** C6, as the specification words it, fails on the research agent of
    [main] when the endpoint raises: [process] raises the endpoint's own
    exception, whose class is not [CompletionServiceError]. *)
Lemma failure_not_wrapped :
  returned (snd (process unreachable_endpoint (Main.research_agent "k") "hello"))
    = false
  /\ raises "ServiceResponseException"
       (snd (process unreachable_endpoint (Main.research_agent "k") "hello"))
     = true
  /\ ~ failure_wrapped unreachable_endpoint (Main.research_agent "k") "hello".
Proof.
  rewrite (process_ready _ _ _ _ _ ready_research_agent_k).
  repeat split. intros H.
  destruct (H _ _ ready_research_agent_k eq_refl) as [H1 _].
  rewrite (process_ready _ _ _ _ _ ready_research_agent_k) in H1.
  discriminate H1.
Qed.

(** C6, amended.  When the call of the endpoint inside [process] raises,
    [process] raises that same exception, unwrapped, and the conversation
    is the history as the endpoint left it: [process] has added the user
    turn before the call and adds no assistant turn after it.  If the
    endpoint left the history it was handed as it was, the conversation is
    the earlier one extended by the user turn alone. *)
Theorem process_propagates_failure
    (ep : Endpoint) (a : Agent) (sid : string) (cs : GoogleAIChatCompletion)
    (m : string) (h : list ChatMessage) (e : Exn) :
  ready a sid cs ->
  ep cs (add_user_message (chat_history a) m) (mkSettings sid (Some Auto))
     (Some (kernel a)) = (h, Raise e) ->
  snd (process ep a m) = Raise e
  /\ fst (process ep a m) = set_chat_history a h
  /\ (h = add_user_message (chat_history a) m ->
      chat_history (fst (process ep a m)) = chat_history a ++ [mkMsg User m]).
Proof.
  intros Hready Hep. rewrite (process_ready ep a sid cs m Hready), Hep.
  repeat split. cbn. by intros ->.
Qed.

Lemma process_propagates_failure_witness :
  snd (process unreachable_endpoint (Main.research_agent "k") "hello")
  = Raise (mkExn "ServiceResponseException" "connection refused")
  /\ chat_history
       (fst (process unreachable_endpoint (Main.research_agent "k") "hello"))
     = chat_history (Main.research_agent "k") ++ [mkMsg User "hello"].
Proof.
  destruct (process_propagates_failure unreachable_endpoint
              (Main.research_agent "k") default_service_id _ "hello"
              (add_user_message (chat_history (Main.research_agent "k")) "hello")
              (mkExn "ServiceResponseException" "connection refused")
              ready_research_agent_k eq_refl) as (H1 & _ & H3).
  split; [exact H1 | exact (H3 eq_refl)].
Defined.

(** An endpoint that has appended a tool result before it raises leaves
    that turn in the conversation. *)
Example failure_after_tool_result :
  chat_history
    (fst (process (scripted ["42"] (Raise (mkExn "TimeoutError" "")))
                  (Main.research_agent "k") "hello"))
  = chat_history (Main.research_agent "k")
      ++ [mkMsg User "hello"; mkMsg Tool "42"].
Proof. by rewrite (process_ready _ _ _ _ _ ready_research_agent_k). Qed.

(** ** The tool loop *)

Lemma process_tool_rounds n m :
  process (tool_rounds n) (Main.research_agent "k") m
  = (set_chat_history (Main.research_agent "k")
       (chat_history (Main.research_agent "k")
          ++ [mkMsg User m] ++ map (mkMsg Tool) (replicate n "tool result")
          ++ [mkMsg Assistant "done"]),
     Return "done").
Proof.
  rewrite (process_ready _ _ _ _ _ ready_research_agent_k).
  unfold tool_rounds, scripted, add_assistant_message, add_user_message.
  by rewrite <- !app_assoc.
Qed.

(** C2, as the specification words it, fails: no cap bounds the tool
    results one call of [process] may add.  For any candidate cap, an
    endpoint that runs one round more makes [process] return normally,
    with all these tool results in the conversation and no
    [ToolLoopExceededError]. *)
Lemma no_tool_loop_cap :
  ~ exists cap : nat,
      forall (ep : Endpoint) (a : Agent) (m : string),
        tool_loop_capped cap ep a m.
Proof.
  intros [cap H].
  specialize (H (tool_rounds (S cap)) (Main.research_agent "k") "go").
  unfold tool_loop_capped in H. rewrite process_tool_rounds in H.
  cbn [fst snd raises chat_history set_chat_history] in H.
  rewrite !count_role_app, count_role_tools, length_replicate in H.
  destruct H as [H|H]; [|discriminate H].
  change (count_role Tool [mkMsg User "go"]) with 0 in H.
  change (count_role Tool [mkMsg Assistant "done"]) with 0 in H.
  lia.
Qed.

Example eleven_tool_rounds :
  returned (snd (process (tool_rounds 11) (Main.research_agent "k") "go")) = true
  /\ count_role Tool
       (chat_history (fst (process (tool_rounds 11) (Main.research_agent "k") "go")))
     = 11.
Proof. rewrite process_tool_rounds. split; reflexivity. Qed.

(** C2, amended.  [process] has no tool loop and no iteration cap of its
    own and never raises [ToolLoopExceededError] by itself: on an
    initialised agent it calls the endpoint once, with tool choice [Auto],
    and its outcome is the outcome of that call.  Whether the call returns
    or raises, the conversation keeps every turn the endpoint left in the
    history, all tool results included. *)
Theorem process_delegates_tool_loop
    (ep : Endpoint) (a : Agent) (sid : string) (cs : GoogleAIChatCompletion)
    (m : string) :
  ready a sid cs ->
  let served :=
    ep cs (add_user_message (chat_history a) m) (mkSettings sid (Some Auto))
       (Some (kernel a)) in
  snd (process ep a m) = snd served
  /\ fst served `prefix_of` chat_history (fst (process ep a m))
  /\ count_role Tool (chat_history (fst (process ep a m)))
     = count_role Tool (fst served)
  /\ (raises "ToolLoopExceededError" (snd (process ep a m)) = true ->
      raises "ToolLoopExceededError" (snd served) = true).
Proof.
  intros Hready served. rewrite (process_ready ep a sid cs m Hready).
  fold served. destruct served as [h [text|e]];
    cbn [fst snd chat_history set_chat_history].
  - unfold add_assistant_message. repeat split; [by apply prefix_app_r| |done].
    rewrite count_role_app. apply Nat.add_0_r.
  - repeat split; done.
Qed.

Lemma process_delegates_tool_loop_witness :
  snd (process (tool_rounds 3) (Main.research_agent "k") "go") = Return "done"
  /\ count_role Tool
       (chat_history (fst (process (tool_rounds 3) (Main.research_agent "k") "go")))
     = 3.
Proof.
  destruct (process_delegates_tool_loop (tool_rounds 3)
              (Main.research_agent "k") default_service_id _ "go"
              ready_research_agent_k) as (H1 & _ & H3 & _).
  split; [exact H1 | exact H3].
Defined.

(** The exceptions [process] raises by itself are those of an agent that
    was not initialised; any other comes from the endpoint. *)
Lemma process_raise_origin (ep : Endpoint) (a : Agent) (m : string) (e : Exn) :
  snd (process ep a m) = Raise e ->
  exn_class e = "AttributeError"
  \/ exn_class e = "KernelServiceNotFoundError"
  \/ exists cs h st k, snd (ep cs h st k) = Raise e.
Proof.
  unfold process. cbn.
  destruct (service_id a) as [sid|]; [|intros [= <-]; by left].
  unfold KernelOps.get_prompt_execution_settings_from_service_id,
    KernelOps.get_service.
  destruct (services (kernel a) !! sid); [|intros [= <-]; right; by left].
  destruct (chat_service a) as [cs|]; [|intros [= <-]; by left].
  cbn. destruct (ep cs _ _ _) as [h [text|e']] eqn:E; [discriminate|].
  intros [= <-]. right; right. do 4 eexists. by rewrite E.
Qed.

(** ** Shape of the conversation over many calls *)

Lemma interleaved_app ph h1 h2 :
  interleaved ph h1 = true ->
  interleaved Idle h2 = true ->
  interleaved ph (h1 ++ h2) = true.
Proof.
  revert ph. induction h1 as [|x h1 IH]; intros ph H1 H2.
  - destruct ph; [exact H2 | discriminate H1].
  - cbn in *. destruct ph, (msg_role x); try discriminate H1; by apply IH.
Qed.

Lemma interleaved_tools added text :
  forallb (fun x => is_tool (msg_role x)) added = true ->
  interleaved AwaitingCompletion (added ++ [mkMsg Assistant text]) = true.
Proof.
  induction added as [|x added IH]; intros H; [reflexivity|].
  cbn in H. apply andb_prop in H as [Hx H].
  apply bool_decide_eq_true in Hx. cbn. rewrite Hx. by apply IH.
Qed.

Lemma count_role_none r added :
  forallb (fun x => negb (bool_decide (msg_role x = r))) added = true ->
  count_role r added = 0.
Proof.
  unfold count_role. induction added as [|x added IH]; intros H; [reflexivity|].
  cbn in H. apply andb_prop in H as [Hx H].
  apply negb_true_iff, bool_decide_eq_false in Hx.
  rewrite filter_cons_False by exact Hx. by apply IH.
Qed.

Lemma forallb_impl {A} (f g : A -> bool) l :
  (forall x, f x = true -> g x = true) ->
  forallb f l = true -> forallb g l = true.
Proof.
  intros Hfg. induction l as [|x l IH]; [done|]. cbn.
  intros [Hx Hl]%andb_prop. by rewrite (Hfg _ Hx), IH.
Qed.

Lemma count_user_assistant_le h :
  count_role User h + count_role Assistant h <= length h.
Proof.
  unfold count_role. induction h as [|x h IH]; [reflexivity|].
  rewrite !filter_cons. destruct x as [[] c]; cbn in *;
    repeat case_decide; try congruence; cbn; lia.
Qed.

Section Conversation.

Variable ep : Endpoint.

(** From any agent: when every [process] call of a sequence returns and
    the endpoint appends tool results only, the calls extend the
    conversation by whole round trips, one per [process] call, whose
    user turns carry the messages in the order of the calls. *)
Lemma calls_round_trips cs :
  appends_only is_tool ep ->
  forall a,
    processes_return ep a cs = true ->
    exists body,
      chat_history (calls ep a cs) = chat_history a ++ body
      /\ interleaved Idle body = true
      /\ count_role User body = length (process_messages cs)
      /\ count_role Assistant body = length (process_messages cs)
      /\ map msg_content (filter (fun x => msg_role x = User) body)
         = process_messages cs.
Proof.
  intros Hep. induction cs as [|c cs IH]; intros a Hret.
  - exists []. by rewrite app_nil_r.
  - cbn [processes_return] in Hret. apply andb_prop in Hret as [Hc Hrest].
    destruct (IH _ Hrest) as (body & Hh & Hi & Hu & Ha & Hm).
    unfold calls in *. cbn [fold_left]. rewrite Hh.
    destruct c as [key sid|p n|m]; cbn [call process_messages omap].
    + rewrite initialize_history. exists body. by repeat split.
    + rewrite add_plugin_history. exists body. by repeat split.
    + destruct (process_history ep is_tool a m Hep) as (added & Hall & Hp).
      destruct (snd (process ep a m)) as [text|e]; [|discriminate Hc].
      rewrite Hp. exists (mkMsg User m :: added ++ [mkMsg Assistant text] ++ body).
      assert (count_role User added = 0) as Hu0.
      { apply count_role_none. revert Hall. apply forallb_impl.
        intros x Hx. apply bool_decide_eq_true in Hx. by rewrite Hx. }
      assert (count_role Assistant added = 0) as Ha0.
      { apply count_role_none. revert Hall. apply forallb_impl.
        intros x Hx. apply bool_decide_eq_true in Hx. by rewrite Hx. }
      assert (filter (fun x => msg_role x = User) added = []) as Hf0.
      { apply length_zero_iff_nil, Hu0. }
      split; [by rewrite <- app_assoc, <- app_comm_cons, <- app_assoc|].
      split.
      { cbn [interleaved msg_role]. rewrite app_assoc.
        apply interleaved_app; [by apply interleaved_tools | exact Hi]. }
      change (mkMsg User m :: added ++ [mkMsg Assistant text] ++ body)
        with ([mkMsg User m] ++ added ++ [mkMsg Assistant text] ++ body).
      rewrite !count_role_app, Hu0, Ha0, Hu, Ha.
      repeat split; try reflexivity.
      rewrite !filter_app, Hf0, !map_app, Hm. reflexivity.
Qed.

End Conversation.

Lemma scripted_appends_tools tool_results answer :
  appends_only is_tool (scripted tool_results answer).
Proof.
  intros cs h st k. exists (map (mkMsg Tool) tool_results).
  split; [reflexivity|]. by induction tool_results.
Qed.

Lemma appends_tools_not_system ep :
  appends_only is_tool ep -> appends_only not_system ep.
Proof.
  intros H cs h st k. destruct (H cs h st k) as (added & Hh & Hall).
  exists added. split; [exact Hh|]. revert Hall. apply forallb_impl.
  intros x Hx. apply bool_decide_eq_true in Hx. unfold not_system.
  by rewrite Hx.
Qed.


Lemma appends_only_weaken (allowed allowed' : Role -> bool) ep :
  (forall ro, allowed ro = true -> allowed' ro = true) ->
  appends_only allowed ep -> appends_only allowed' ep.
Proof.
  intros Hsub H cs h st k. destruct (H cs h st k) as (added & Hh & Hall).
  exists added. split; [exact Hh|]. revert Hall. apply forallb_impl.
  intros x. apply Hsub.
Qed.







Example two_round_trips :
  map msg_role
    (chat_history
       (calls (tool_rounds 1) (Agent_init "A" "R" "S")
          [CallInitialize "k" default_service_id;
           CallProcess "hello"; CallProcess "again"]))
  = [System; User; Tool; Assistant; User; Tool; Assistant].
Proof. vm_compute. reflexivity. Qed.

(** The loop of [demo-1.py] has the same shape: one pass appends the user
    turn, then what the endpoint adds, then the assistant turn if the call
    returned. *)
Lemma demo1_turn_history ep allowed cs h user_input :
  appends_only allowed ep ->
  exists added,
    forallb (fun x => allowed (msg_role x)) added = true
    /\ fst (Demo1.turn ep cs h user_input)
       = h ++ mkMsg User user_input :: added
           ++ match snd (Demo1.turn ep cs h user_input) with
              | Return text => [mkMsg Assistant text]
              | Raise _ => []
              end.
Proof.
  intros Hep. unfold Demo1.turn.
  match goal with
  | |- context [ep ?c ?x ?s ?k] =>
      destruct (Hep c x s k) as (added & Hh & Hall);
      destruct (ep c x s k) as [h' out]
  end.
  cbn in Hh. subst h'. exists added. split; [exact Hall|].
  unfold add_user_message, add_assistant_message.
  destruct out as [text|e]; cbn; rewrite <- ?app_assoc, ?app_nil_r;
    reflexivity.
Qed.

Example demo1_first_turn :
  map msg_role
    (fst (Demo1.turn (scripted [] (Return "Hi, I am Alex.")) (Demo1.gemini "k")
            Demo1.initial_history "hello"))
  = [System; User; Assistant].
Proof. reflexivity. Qed.

(** ** The system turn *)

Lemma calls_add_no_system ep cs :
  appends_only not_system ep ->
  forall a,
    exists added,
      chat_history (calls ep a cs) = chat_history a ++ added
      /\ count_role System added = 0.
Proof.
  intros Hep. induction cs as [|c cs IH]; intros a.
  - exists []. by rewrite app_nil_r.
  - unfold calls in *. cbn [fold_left].
    destruct (IH (call ep a c)) as (added & Hh & Hn). rewrite Hh.
    destruct c as [key sid|p n|m]; cbn [call].
    + rewrite initialize_history. by exists added.
    + rewrite add_plugin_history. by exists added.
    + destruct (process_history ep not_system a m Hep) as (mid & Hall & Hp).
      rewrite Hp. eexists. split; [by rewrite <- app_assoc|].
      change (mkMsg User m :: mid ++ ?t) with ([mkMsg User m] ++ mid ++ t).
      rewrite !count_role_app, Hn, (count_role_none System mid Hall).
      by destruct (snd (process ep a m)).
Qed.

(** C5.  The constructor puts the system message as the only turn of the
    conversation.  After any sequence of [initialize], [add_plugin] and
    [process] calls, returning or raising, with an endpoint that only
    appends turns other than system turns, the first turn is still that
    system turn, with the text given to the constructor, and it is the
    only system turn. *)
Theorem system_turn_first_and_only
    (ep : Endpoint) (n r s : string) (cs : list Call) :
  appends_only not_system ep ->
  chat_history (Agent_init n r s) = [mkMsg System s]
  /\ exists rest,
       chat_history (calls ep (Agent_init n r s) cs) = mkMsg System s :: rest
       /\ count_role System rest = 0
       /\ count_role System (chat_history (calls ep (Agent_init n r s) cs)) = 1.
Proof.
  intros Hep. split; [reflexivity|].
  destruct (calls_add_no_system ep cs Hep (Agent_init n r s)) as (added & Hh & Hn).
  exists added. rewrite Hh. cbn [Agent_init chat_history].
  repeat split; [exact Hn|].
  unfold add_system_message, ChatHistory_new. cbn [app].
  change (mkMsg System s :: added) with ([mkMsg System s] ++ added).
  by rewrite count_role_app, Hn.
Qed.

Lemma system_turn_first_and_only_witness :
  exists rest,
    chat_history
      (calls unreachable_endpoint (Agent_init "Coordinator" "Task Coordinator" "Route.")
         [CallProcess "too early"; CallInitialize "k" default_service_id;
          CallInitialize "k" default_service_id; CallProcess "hello"])
    = mkMsg System "Route." :: rest
    /\ count_role System rest = 0.
Proof.
  destruct (system_turn_first_and_only unreachable_endpoint
              "Coordinator" "Task Coordinator" "Route."
              [CallProcess "too early"; CallInitialize "k" default_service_id;
               CallInitialize "k" default_service_id; CallProcess "hello"]
              (appends_tools_not_system _ (scripted_appends_tools _ _)))
    as (_ & rest & H1 & H2 & _).
  exists rest. split; [exact H1 | exact H2].
Defined.

(** ** Plugin registration *)

Lemma heap_set_eq (h : Heap) l a : heap_set h l a l = a.
Proof. unfold heap_set. by rewrite decide_True. Qed.

Lemma heap_set_ne (h : Heap) l l' a : l' <> l -> heap_set h l a l' = h l'.
Proof. intros H. unfold heap_set. by rewrite decide_False. Qed.

(** C3, as the specification words it, fails on the research agent of
    [main]: its registry holds "ResearchPlugin", and registering another
    plugin under that name returns normally and replaces the entry. *)
Lemma duplicate_plugin_accepted :
  plugins (kernel (Main.research_agent "k")) !! "ResearchPlugin"
    = Some ResearchPluginObj
  /\ snd (add_plugin (Main.research_agent "k") WritingPluginObj "ResearchPlugin")
     = Return tt
  /\ plugins (kernel (fst (add_plugin (Main.research_agent "k")
                             WritingPluginObj "ResearchPlugin")))
       !! "ResearchPlugin" = Some WritingPluginObj
  /\ ~ duplicate_rejected (Main.research_agent "k") WritingPluginObj
         "ResearchPlugin".
Proof.
  repeat split. intros H.
  assert (is_Some (plugins (kernel (Main.research_agent "k")) !! "ResearchPlugin"))
    as Hsome by (by eexists).
  specialize (H Hsome). discriminate H.
Qed.

Lemma kernel_add_plugin_valid k p n :
  KernelOps.valid_name n = true ->
  KernelOps.add_plugin k p n
  = Return (mkKernel (services k) (<[n := p]> (plugins k))).
Proof.
  intros Hv. unfold KernelOps.add_plugin, KernelOps.filed_name.
  destruct (String.eqb n "") eqn:E.
  - apply String.eqb_eq in E. subst n. discriminate Hv.
  - by rewrite Hv.
Qed.

Lemma add_plugin_valid a p n :
  KernelOps.valid_name n = true ->
  add_plugin a p n
  = (set_kernel a (mkKernel (services (kernel a)) (<[n := p]> (plugins (kernel a)))),
     Return tt).
Proof. intros Hv. unfold add_plugin. by rewrite kernel_add_plugin_valid. Qed.

(** C3, amended.  [add_plugin] makes no duplicate check and there is no
    [DuplicateToolError]: for a name the kernel accepts (letters, digits
    and underscores), a registration under a name already in the agent's
    registry returns normally, as the first one did, and replaces the
    plugin held under that name, the other names keeping theirs.  Each
    agent has a registry of its own: the same name registered on two
    different agents succeeds on both, and a registration on one leaves
    the other agent as it was. *)
Theorem add_plugin_replaces_per_agent
    (h : Heap) (l1 l2 : loc) (p q : Plugin) (n n' : string) :
  l1 <> l2 ->
  n' <> n ->
  KernelOps.valid_name n = true ->
  let first := on_agent (fun a => add_plugin a p n) h l1 in
  let again := on_agent (fun a => add_plugin a q n) (fst first) l1 in
  let other := on_agent (fun a => add_plugin a p n) (fst again) l2 in
  snd first = Return tt /\ snd again = Return tt /\ snd other = Return tt
  /\ plugins (kernel (fst first l1)) !! n = Some p
  /\ plugins (kernel (fst again l1)) !! n = Some q
  /\ plugins (kernel (fst again l1)) !! n' = plugins (kernel (h l1)) !! n'
  /\ plugins (kernel (fst other l2)) !! n = Some p
  /\ fst other l1 = fst again l1
  /\ fst again l2 = h l2.
Proof.
  intros Hl Hn Hv first again other. subst first again other.
  unfold on_agent. rewrite !(add_plugin_valid _ _ n Hv). cbn [fst snd].
  rewrite !heap_set_eq.
  rewrite !(heap_set_ne _ l2 l1) by done.
  rewrite !(heap_set_ne _ l1 l2) by done.
  rewrite !heap_set_eq.
  cbn [kernel set_kernel plugins].
  repeat split; try apply lookup_insert_eq.
  by rewrite !lookup_insert_ne.
Qed.

Lemma add_plugin_replaces_per_agent_witness :
  plugins
    (kernel
       (fst (on_agent (fun a => add_plugin a WritingPluginObj "ResearchPlugin")
               (fst (on_agent (fun a => add_plugin a ResearchPluginObj "ResearchPlugin")
                       (Main.heap "k") 0)) 0) 0))
    !! "ResearchPlugin" = Some WritingPluginObj.
Proof.
  exact (proj1 (proj2 (proj2 (proj2 (proj2
    (add_plugin_replaces_per_agent (Main.heap "k") 0 1
       ResearchPluginObj WritingPluginObj "ResearchPlugin" "WritingPlugin"
       ltac:(discriminate) ltac:(discriminate) eq_refl)))))).
Defined.

(** A name with a space is refused, and the registry stays as it was; an
    empty name files the plugin under the name of its class. *)
Example add_plugin_invalid_name :
  raises "FunctionInitializationError"
    (snd (add_plugin (Agent_init "A" "R" "S") ResearchPluginObj "Research Plugin"))
  = true
  /\ fst (add_plugin (Agent_init "A" "R" "S") ResearchPluginObj "Research Plugin")
     = Agent_init "A" "R" "S"
  /\ plugins (kernel (fst (add_plugin (Agent_init "A" "R" "S")
                             DataAnalysisPluginObj "")))
       !! "DataAnalysisPlugin" = Some DataAnalysisPluginObj.
Proof. repeat split. Qed.

(** ** Orchestrator *)

Section DictFacts.

Context {V : Type}.
Implicit Types (d : list (string * V)) (k : string) (v : V).

Lemma dict_get_set_eq d k v : dict_get (dict_set d k v) k = Some v.
Proof.
  induction d as [|[k' v'] d IH]; cbn.
  - by rewrite decide_True.
  - case_decide; cbn; [by rewrite decide_True | by rewrite decide_False].
Qed.

Lemma dict_get_set_ne d k k' v :
  k' <> k -> dict_get (dict_set d k v) k' = dict_get d k'.
Proof.
  intros Hne. induction d as [|[k0 v0] d IH]; cbn.
  - by rewrite decide_False.
  - case_decide; cbn.
    + subst k0. by rewrite !decide_False.
    + case_decide; [reflexivity | exact IH].
Qed.

Lemma dict_get_None d k : k ∉ dict_keys d -> dict_get d k = None.
Proof.
  induction d as [|[k' v'] d IH]; cbn; [done|].
  intros Hk. apply not_elem_of_cons in Hk as [Hne Hk].
  rewrite decide_False by done. by apply IH.
Qed.

Lemma dict_keys_set d k v :
  dict_keys (dict_set d k v)
  = if decide (k ∈ dict_keys d) then dict_keys d else dict_keys d ++ [k].
Proof.
  unfold dict_keys. induction d as [|[k' v'] d IH]; cbn.
  - rewrite decide_False; [reflexivity | apply not_elem_of_nil].
  - destruct (decide (k' = k)) as [->|Hk]; cbn.
    + rewrite decide_True; [reflexivity | apply elem_of_cons; by left].
    + rewrite IH. destruct (decide (k ∈ map fst d)) as [Hin|Hin].
      * rewrite decide_True; [reflexivity | apply elem_of_cons; by right].
      * rewrite decide_False; [reflexivity|].
        intros [->|?]%elem_of_cons; done.
Qed.

(** The key assigned sits at some position, and a later assignment to
    it rewrites that position and nothing else. *)
Lemma dict_set_position d k v :
  exists i,
    dict_set d k v !! i = Some (k, v)
    /\ forall v', dict_set (dict_set d k v) k v' = <[i := (k, v')]> (dict_set d k v).
Proof.
  induction d as [|[k' v0] d IH]; cbn.
  - exists 0. split; [reflexivity|]. intros v'. cbn. by rewrite decide_True.
  - case_decide as Hk.
    + exists 0. split; [reflexivity|]. intros v'. cbn. by rewrite decide_True.
    + destruct IH as (i & Hi & Hset). exists (S i). split; [exact Hi|].
      intros v'. cbn. rewrite decide_False by done. by rewrite Hset.
Qed.

End DictFacts.

Lemma filter_eq_absent (l : list string) (x : string) :
  x ∉ l -> filter (fun k => k = x) l = [].
Proof.
  induction l as [|y l IH]; [reflexivity|].
  intros [Hne Hx]%not_elem_of_cons.
  rewrite filter_cons_False by (intros ->; done). by apply IH.
Qed.

Lemma count_eq_NoDup (l : list string) (x : string) :
  NoDup l -> x ∈ l -> length (filter (fun k => k = x) l) = 1.
Proof.
  induction 1 as [|y l Hy Hnd IH]; intros Hx; [by apply elem_of_nil in Hx|].
  rewrite filter_cons. case_decide as E.
  - subst y. cbn. by rewrite filter_eq_absent.
  - apply elem_of_cons in Hx as [->|Hx]; [done | by apply IH].
Qed.

Lemma list_agents_names (h : Heap) (d : list (string * loc)) (n : string) :
  Forall (fun kv => name (h (snd kv)) = fst kv) d ->
  length (filter (fun e => summary_name e = n)
            (map (fun agent => mkSummary (name (h agent)) (role (h agent)))
                 (dict_values d)))
  = length (filter (fun k => k = n) (dict_keys d)).
Proof.
  induction 1 as [|[k l] d Hk Hd IH]; [reflexivity|].
  unfold dict_values, dict_keys in *. cbn [map fst snd] in *.
  rewrite !filter_cons. cbn [summary_name]. rewrite Hk.
  case_decide; cbn [length]; by rewrite IH.
Qed.

Lemma orch_wf_init h : orch_wf h Orchestrator_init.
Proof. split; constructor. Qed.

Lemma orch_wf_add_agent h o a : orch_wf h o -> orch_wf h (add_agent h o a).
Proof.
  intros [Hnd Hall]. split; unfold add_agent; cbn [agents].
  - rewrite dict_keys_set.
    destruct (decide (name (h a) ∈ dict_keys (agents o))) as [Hin|Hin];
      [exact Hnd|].
    apply NoDup_app. repeat split; [exact Hnd| |apply NoDup_singleton].
    intros x Hx [->|[]%elem_of_nil]%elem_of_cons. done.
  - clear Hnd. induction Hall as [|[k l] d Hk Hd IH]; cbn [dict_set].
    + by repeat constructor.
    + destruct (decide (k = name (h a))); constructor; done.
Qed.

Lemma orch_wf_add_agents h ls : orch_wf h (add_agents h Orchestrator_init ls).
Proof.
  unfold add_agents.
  assert (forall o, orch_wf h o -> orch_wf h (fold_left (add_agent h) ls o)) as H.
  { induction ls as [|l ls IH]; intros o Ho; [exact Ho|].
    cbn. apply IH. by apply orch_wf_add_agent. }
  apply H, orch_wf_init.
Qed.

(** A [process] call on any agent keeps the orchestrator well formed. *)
Lemma orch_wf_process ep h o l m :
  orch_wf h o ->
  orch_wf (fst (on_agent (fun a => process ep a m) h l)) o.
Proof.
  intros [Hnd Hall]. split; [exact Hnd|].
  unfold on_agent. destruct (process ep (h l) m) as [a' r] eqn:E. cbn [fst].
  assert (name a' = name (h l)) as Hname.
  { pose proof (process_frame ep (h l) m) as Hf. rewrite E in Hf.
    cbn in Hf. by rewrite Hf. }
  eapply Forall_impl; [exact Hall|]. intros [k l'] Hk. cbn in *.
  unfold heap_set. case_decide; [by subst l'; rewrite Hname | exact Hk].
Qed.

Lemma get_agent_add_agents_None h ls :
  forall o n,
    get_agent o n = None ->
    n ∉ map (fun l => name (h l)) ls ->
    get_agent (add_agents h o ls) n = None.
Proof.
  induction ls as [|l ls IH]; intros o n Ho Hn; [exact Ho|].
  cbn in Hn. apply not_elem_of_cons in Hn as [Hne Hn].
  change (add_agents h o (l :: ls)) with (add_agents h (add_agent h o l) ls).
  apply IH; [|exact Hn].
  unfold get_agent, add_agent. cbn [agents].
  by rewrite dict_get_set_ne.
Qed.

(** C7.  After [add_agent(a)], [get_agent(a.name)] returns [a] itself,
    the same object.  On an orchestrator built by any sequence of
    [add_agent] calls, [get_agent] of a name that none of the added
    agents bears returns [None]: an ordinary value, [get_agent] having no
    raising outcome. *)
Theorem get_agent_after_add_agent
    (h : Heap) (o : Orchestrator) (a : loc) (ls : list loc) (n : string) :
  get_agent (add_agent h o a) (name (h a)) = Some a
  /\ (n ∉ map (fun l => name (h l)) ls ->
      get_agent (add_agents h Orchestrator_init ls) n = None).
Proof.
  split.
  - apply dict_get_set_eq.
  - by apply get_agent_add_agents_None.
Qed.

Lemma get_agent_after_add_agent_witness :
  get_agent (add_agent (Main.heap "k") (Main.orchestrator "k") 2) "WriterAgent"
    = Some 2
  /\ get_agent (Main.orchestrator "k") "missing" = None.
Proof.
  destruct (get_agent_after_add_agent (Main.heap "k") (Main.orchestrator "k")
              2 [0; 1; 2; 3] "missing") as [H1 H2].
  split; [exact H1|].
  apply H2. apply (bool_decide_unpack _). vm_compute. exact I.
Defined.

Example main_list_agents :
  list_agents (Main.heap "k") (Main.orchestrator "k")
  = [ mkSummary "ResearchAgent" "Research Specialist";
      mkSummary "AnalystAgent" "Data Analyst";
      mkSummary "WriterAgent" "Content Writer";
      mkSummary "Coordinator" "Task Coordinator" ].
Proof. reflexivity. Qed.

(** C9.  Let two agents bear the same name.  [add_agent] of the first and
    then of the second raises nothing, [add_agent] having no raising
    outcome; afterwards [get_agent] of the name returns the second agent,
    [list_agents] holds exactly one entry of that name, and that entry
    stands where the key stood after the first call, the other entries
    being as they were.  The orchestrator is one whose keys are the names
    of its agents, as [add_agent] keeps it. *)
Theorem add_agent_same_name_last_wins
    (h : Heap) (o : Orchestrator) (a1 a2 : loc) :
  orch_wf h o ->
  name (h a1) = name (h a2) ->
  let n := name (h a1) in
  let o1 := add_agent h o a1 in
  let o2 := add_agent h o1 a2 in
  get_agent o2 n = Some a2
  /\ length (filter (fun e => summary_name e = n) (list_agents h o2)) = 1
  /\ exists i,
       agents o1 !! i = Some (n, a1)
       /\ agents o2 = <[i := (n, a2)]> (agents o1)
       /\ list_agents h o1 !! i = Some (mkSummary n (role (h a1)))
       /\ list_agents h o2 !! i = Some (mkSummary n (role (h a2)))
       /\ length (list_agents h o2) = length (list_agents h o1).
Proof.
  intros Hwf Hname n o1 o2.
  assert (orch_wf h o2) as [Hnd Hall]
      by (by apply orch_wf_add_agent, orch_wf_add_agent).
  destruct (dict_set_position (agents o) n a1) as (i & Hi & Hset).
  assert (agents o2 = <[i := (n, a2)]> (agents o1)) as Ho2.
  { subst o2 o1. unfold add_agent at 1. cbn [agents]. rewrite <- Hname.
    apply Hset. }
  assert (agents o2 !! i = Some (n, a2)) as Hi2.
  { rewrite Ho2. apply list_lookup_insert_eq. by eapply lookup_lt_Some. }
  split; [|split].
  - subst o2. unfold get_agent, add_agent at 1. cbn [agents]. subst n.
    rewrite Hname. apply dict_get_set_eq.
  - unfold list_agents. rewrite list_agents_names by exact Hall.
    apply count_eq_NoDup; [exact Hnd|].
    unfold dict_keys. apply list_elem_of_fmap. exists (n, a2).
    split; [reflexivity|]. by eapply list_elem_of_lookup_2.
  - assert (agents o1 !! i = Some (n, a1)) as Hi1 by exact Hi.
    exists i. split; [exact Hi1|]. split; [exact Ho2|].
    unfold list_agents, dict_values.
    rewrite !list_lookup_fmap, Hi1, Hi2. cbn [fmap option_fmap option_map snd].
    rewrite <- Hname. fold n.
    repeat split. rewrite !length_map, Ho2. apply length_insert.
Qed.

Lemma add_agent_same_name_last_wins_witness :
  get_agent
    (add_agent (heap_set (Main.heap "k") 4 (Agent_init "AnalystAgent" "Auditor" "Audit."))
       (add_agent (heap_set (Main.heap "k") 4 (Agent_init "AnalystAgent" "Auditor" "Audit."))
          (Main.orchestrator "k") 1) 4)
    "AnalystAgent"
  = Some 4.
Proof.
  refine (proj1 (add_agent_same_name_last_wins
            (heap_set (Main.heap "k") 4 (Agent_init "AnalystAgent" "Auditor" "Audit."))
            (Main.orchestrator "k") 1 4 _ eq_refl)).
  split.
  - apply (bool_decide_unpack _). vm_compute. exact I.
  - repeat constructor.
Defined.

Example same_name_list_agents :
  let h := heap_set (Main.heap "k") 4 (Agent_init "AnalystAgent" "Auditor" "Audit.") in
  list_agents h (add_agent h (Main.orchestrator "k") 4)
  = [ mkSummary "ResearchAgent" "Research Specialist";
      mkSummary "AnalystAgent" "Auditor";
      mkSummary "WriterAgent" "Content Writer";
      mkSummary "Coordinator" "Task Coordinator" ].
Proof. reflexivity. Qed.


(** * Further properties of the plugins *)

Lemma prefix_app (t b : string) : String.prefix t (t +:+ b) = true.
Proof.
  induction t as [|c t IH]; [apply prefix_nil|].
  change (String c t +:+ b) with (String c (t +:+ b)). cbn [String.prefix].
  by destruct (ascii_dec c c).
Qed.

Lemma contains_app_r (n a b : string) :
  Str.contains n b = true -> Str.contains n (a +:+ b) = true.
Proof.
  intros H. induction a as [|c a IH]; [exact H|].
  change (String c a +:+ b) with (String c (a +:+ b)).
  cbn [Str.contains]. rewrite IH. apply orb_true_r.
Qed.

Lemma contains_prefix (n s : string) :
  String.prefix n s = true -> Str.contains n s = true.
Proof. intros H. destruct s; cbn [Str.contains]; by rewrite H. Qed.

(** A text occurs in whatever is built around it. *)
Lemma contains_middle (a t b : string) : Str.contains t (a +:+ t +:+ b) = true.
Proof. apply contains_app_r, contains_prefix, prefix_app. Qed.

Lemma upper_char_nl (c : ascii) :
  Ascii.eqb (Str.upper_char c) (ascii_of_nat 10) = Ascii.eqb c (ascii_of_nat 10).
Proof. destruct c as [[] [] [] [] [] [] [] []]; reflexivity. Qed.

Lemma contains_nl_upper (s : string) :
  Str.contains Str.nl (Str.upper s) = Str.contains Str.nl s.
Proof.
  unfold Str.nl, Str.upper. induction s as [|c s IH]; [reflexivity|].
  cbn [Str.map_chars Str.contains String.prefix]. rewrite IH, !prefix_nil.
  pose proof (upper_char_nl c) as Hc.
  destruct (ascii_dec (ascii_of_nat 10) (Str.upper_char c)) as [E|E],
           (ascii_dec (ascii_of_nat 10) c) as [E'|E']; try reflexivity.
  - assert (Ascii.eqb (Str.upper_char c) (ascii_of_nat 10) = true) as H
      by (apply Ascii.eqb_eq; congruence).
    rewrite Hc in H. apply Ascii.eqb_eq in H. congruence.
  - assert (Ascii.eqb c (ascii_of_nat 10) = true) as H
      by (apply Ascii.eqb_eq; congruence).
    rewrite <- Hc in H. apply Ascii.eqb_eq in H. congruence.
Qed.

(** X1.  [search_information] answers by the first key of its table, in
    the order "python", "ai", "quantum computing", that occurs anywhere in
    the topic, letter case aside: a topic that mentions python gets the
    python text whatever else it mentions, one that holds "ai" and not
    "python" gets the AI text, and one that holds only "quantum computing"
    gets the quantum text.  The topic is ASCII text. *)
Theorem search_information_first_match (topic : string) :
  Text.is_ascii topic = true ->
  (Str.contains "python" (Str.lower topic) = true ->
   ResearchPlugin.search_information topic = ResearchPlugin.python_text)
  /\ (Str.contains "python" (Str.lower topic) = false ->
      Str.contains "ai" (Str.lower topic) = true ->
      ResearchPlugin.search_information topic = ResearchPlugin.ai_text)
  /\ (Str.contains "python" (Str.lower topic) = false ->
      Str.contains "ai" (Str.lower topic) = false ->
      Str.contains "quantum computing" (Str.lower topic) = true ->
      ResearchPlugin.search_information topic = ResearchPlugin.quantum_text).
Proof.
  unfold ResearchPlugin.search_information, ResearchPlugin.research_data.
  cbn [ResearchPlugin.scan]. intros _.
  repeat split; intros; 
    repeat match goal with E : Str.contains _ _ = _ |- _ => rewrite E; clear E end;
    reflexivity.
Qed.

Lemma search_information_first_match_witness :
  ResearchPlugin.search_information "Is PYTHON used for AI?"
    = ResearchPlugin.python_text
  /\ ResearchPlugin.search_information "How do I send an Email"
     = ResearchPlugin.ai_text
  /\ ResearchPlugin.search_information "Quantum Computing 101"
     = ResearchPlugin.quantum_text.
Proof.
  split; [|split].
  - exact (proj1 (search_information_first_match "Is PYTHON used for AI?" eq_refl)
             eq_refl).
  - exact (proj1 (proj2 (search_information_first_match "How do I send an Email" eq_refl))
             eq_refl eq_refl).
  - exact (proj2 (proj2 (search_information_first_match "Quantum Computing 101" eq_refl))
             eq_refl eq_refl eq_refl).
Defined.

(** X2.  An ASCII topic in which no key of the table occurs gets the fallback
    sentence, and that sentence quotes the topic exactly as it was given,
    letter case included. *)
Theorem search_information_unknown_topic (topic : string) :
  Text.is_ascii topic = true ->
  forallb (fun kv => negb (Str.contains (fst kv) (Str.lower topic)))
          ResearchPlugin.research_data = true ->
  ResearchPlugin.search_information topic
    = "Research on '" +:+ topic
        +:+ "': This is a complex topic that requires further investigation."
  /\ Str.contains topic (ResearchPlugin.search_information topic) = true.
Proof.
  intros _ H. rewrite (search_information_fallback topic H).
  split; [reflexivity|]. apply contains_middle.
Qed.

Lemma search_information_unknown_topic_witness :
  Str.contains "Rust Ownership"
    (ResearchPlugin.search_information "Rust Ownership") = true.
Proof.
  exact (proj2 (search_information_unknown_topic "Rust Ownership" eq_refl eq_refl)).
Defined.

(** X3.  Whatever the description, the text of [analyze_data] quotes it
    as given and reports the 15% increase. *)
Theorem analyze_data_quotes_description (data_description : string) :
  Str.contains data_description
    (DataAnalysisPlugin.analyze_data data_description) = true
  /\ Str.contains "15%"
       (DataAnalysisPlugin.analyze_data data_description) = true.
Proof.
  split; [apply contains_middle|].
  unfold DataAnalysisPlugin.analyze_data.
  do 2 apply contains_app_r. reflexivity.
Qed.

(** X4.  For any topic and any style in ASCII, the style without line feed, the first line of
    [create_content] is the style in upper case followed by CONTENT,
    between brackets, and the text holds the topic and the style as
    given. *)
Theorem create_content_shape (topic style : string) :
  Text.is_ascii topic = true ->
  Text.is_ascii style = true ->
  Str.contains Str.nl style = false ->
  Str.first_line (WritingPlugin.create_content topic style)
    = "[" +:+ Str.upper style +:+ " CONTENT]"
  /\ Str.contains topic (WritingPlugin.create_content topic style) = true
  /\ Str.contains style (WritingPlugin.create_content topic style) = true.
Proof.
  intros _ _ H. split; [|split].
  - apply create_content_first_line. by rewrite contains_nl_upper.
  - unfold WritingPlugin.create_content.
    do 5 apply contains_app_r. apply contains_prefix, prefix_app.
  - unfold WritingPlugin.create_content.
    do 9 apply contains_app_r. apply contains_prefix, prefix_app.
Qed.

Lemma create_content_shape_witness :
  Str.first_line (WritingPlugin.create_content "Tea" "formal")
  = "[FORMAL CONTENT]".
Proof. exact (proj1 (create_content_shape "Tea" "formal" eq_refl eq_refl eq_refl)). Defined.

(** * Further properties of the agent *)

Section AgentFacts.

Variable ep : Endpoint.

Lemma calls_cons a c cs : calls ep a (c :: cs) = calls ep (call ep a c) cs.
Proof. reflexivity. Qed.

Lemma initialize_plugins a key sid :
  plugins (kernel (fst (initialize a key sid))) = plugins (kernel a).
Proof.
  unfold initialize.
  destruct (GoogleAIChatCompletion_init _ _ _); [|reflexivity].
  unfold KernelOps.add_service.
  destruct (services (kernel a) !! _); [reflexivity|].
  destruct (KernelOps.get_service _ _); reflexivity.
Qed.

Lemma add_plugin_service_id a p n :
  service_id (fst (add_plugin a p n)) = service_id a.
Proof. unfold add_plugin. by destruct (KernelOps.add_plugin _ _ _). Qed.

Lemma process_unready a m :
  service_id a = None ->
  process ep a m
  = (set_chat_history a (chat_history a ++ [mkMsg User m]),
     Raise (AttributeError "service_id")).
Proof. intros H. unfold process. cbn. by rewrite H. Qed.

Lemma calls_unready cs :
  no_initialize cs = true ->
  forall a,
    service_id a = None ->
    service_id (calls ep a cs) = None
    /\ chat_history (calls ep a cs)
       = chat_history a ++ map (mkMsg User) (process_messages cs).
Proof.
  induction cs as [|c cs IH]; intros Hno a Ha.
  - split; [exact Ha | by rewrite app_nil_r].
  - cbn [no_initialize forallb] in Hno. apply andb_prop in Hno as [Hc Hno].
    rewrite calls_cons. destruct c as [key sid|p n|m]; [discriminate Hc| |].
    + destruct (IH Hno (call ep a (CallAddPlugin p n))) as [H1 H2].
      { cbn [call]. by rewrite add_plugin_service_id. }
      split; [exact H1|]. rewrite H2. cbn [call].
      by rewrite add_plugin_history.
    + cbn [call]. rewrite (process_unready a m Ha). cbn [fst].
      destruct (IH Hno (set_chat_history a (chat_history a ++ [mkMsg User m])) Ha)
        as [H1 H2].
      split; [exact H1|]. rewrite H2. cbn. by rewrite <- app_assoc.
Qed.

End AgentFacts.

(** X5.  An agent on which [initialize] was never called cannot answer:
    whatever plugins are registered, each [process] call raises
    [AttributeError] (the attribute [service_id] does not exist yet), the
    endpoint is not consulted, and each attempt still leaves its user turn
    in the conversation, which is the system turn followed by the messages
    of all attempts. *)
Theorem uninitialised_agent_never_answers
    (ep : Endpoint) (n r s : string) (cs : list Call) (m : string) :
  no_initialize cs = true ->
  let a := calls ep (Agent_init n r s) cs in
  chat_history a = mkMsg System s :: map (mkMsg User) (process_messages cs)
  /\ snd (process ep a m) = Raise (AttributeError "service_id")
  /\ chat_history (fst (process ep a m)) = chat_history a ++ [mkMsg User m].
Proof.
  intros Hno a.
  destruct (calls_unready ep cs Hno (Agent_init n r s) eq_refl) as [H1 H2].
  fold a in H1, H2. split; [exact H2|].
  by rewrite (process_unready ep a m H1).
Qed.

Lemma uninitialised_agent_never_answers_witness :
  chat_history
    (calls (scripted [] (Return "hello"))
       (Agent_init "WriterAgent" "Content Writer" "Write.")
       [CallAddPlugin WritingPluginObj "WritingPlugin"; CallProcess "one";
        CallProcess "two"])
  = [mkMsg System "Write."; mkMsg User "one"; mkMsg User "two"].
Proof.
  exact (proj1 (uninitialised_agent_never_answers (scripted [] (Return "hello"))
           "WriterAgent" "Content Writer" "Write."
           [CallAddPlugin WritingPluginObj "WritingPlugin"; CallProcess "one";
            CallProcess "two"] "three" eq_refl)).
Defined.

Lemma initialize_fresh (a : Agent) (key sid : string) :
  key <> "" ->
  services (kernel a) !! sid = None ->
  snd (initialize a key sid) = Return tt
  /\ ready (fst (initialize a key sid)) sid (mkService sid "gemini-2.5-flash" key)
  /\ chat_history (fst (initialize a key sid)) = chat_history a
  /\ plugins (kernel (fst (initialize a key sid))) = plugins (kernel a).
Proof.
  intros Hkey H. unfold initialize, GoogleAIChatCompletion_init.
  destruct (String.eqb key "") eqn:E; [by apply String.eqb_eq in E|].
  unfold KernelOps.add_service, KernelOps.get_service.
  cbn [svc_service_id]. rewrite H. cbn. rewrite lookup_insert_eq. cbn.
  repeat split. apply lookup_insert_eq.
Qed.

Lemma initialize_no_key (a : Agent) (sid : string) :
  raises "ServiceInitializationError" (snd (initialize a "" sid)) = true
  /\ fst (initialize a "" sid) = a.
Proof. split; reflexivity. Qed.

(** X6.  [initialize] with a key and with a service id, both not empty,
    that the kernel does not hold yet returns normally and leaves the
    agent able to call the endpoint: both attributes are set, the kernel
    holds the service (model "gemini-2.5-flash", the key given) under that
    id; the conversation and the registered plugins are as before.
    Without a key the service constructor raises
    [ServiceInitializationError] and the agent is as it was, unbound. *)
Theorem initialize_makes_ready (a : Agent) (key sid : string) :
  key <> "" ->
  sid <> "" ->
  services (kernel a) !! sid = None ->
  snd (initialize a key sid) = Return tt
  /\ ready (fst (initialize a key sid)) sid (mkService sid "gemini-2.5-flash" key)
  /\ chat_history (fst (initialize a key sid)) = chat_history a
  /\ plugins (kernel (fst (initialize a key sid))) = plugins (kernel a)
  /\ raises "ServiceInitializationError" (snd (initialize a "" sid)) = true
  /\ fst (initialize a "" sid) = a.
Proof.
  intros Hkey _ H.
  destruct (initialize_fresh a key sid Hkey H) as (H1 & H2 & H3 & H4).
  destruct (initialize_no_key a sid) as [H5 H6].
  exact (conj H1 (conj H2 (conj H3 (conj H4 (conj H5 H6))))).
Qed.

Lemma initialize_makes_ready_witness :
  ready (fst (initialize (Agent_init "A" "R" "S") "k" default_service_id))
        default_service_id
        (mkService default_service_id "gemini-2.5-flash" "k").
Proof.
  exact (proj1 (proj2 (initialize_makes_ready (Agent_init "A" "R" "S") "k"
                         default_service_id ltac:(discriminate)
                         ltac:(discriminate) eq_refl))).
Defined.

Lemma ready_call ep a sid cs c :
  ready a sid cs -> exists sid' cs', ready (call ep a c) sid' cs'.
Proof.
  intros (H1 & H2 & H3). destruct c as [key sid0|p n|m]; cbn [call].
  - destruct (decide (key = "")) as [->|Hkey].
    + exists sid, cs. by repeat split.
    + destruct (services (kernel a) !! sid0) eqn:E.
      * exists sid, cs. unfold initialize, GoogleAIChatCompletion_init.
        destruct (String.eqb key "") eqn:Ek; [by apply String.eqb_eq in Ek|].
        unfold KernelOps.add_service. cbn [svc_service_id]. rewrite E.
        by repeat split.
      * destruct (initialize_fresh a key sid0 Hkey E) as (_ & Hr & _). eauto.
  - exists sid, cs. unfold add_plugin, KernelOps.add_plugin.
    destruct (KernelOps.valid_name _); by repeat split.
  - rewrite (process_frame ep a m). exists sid, cs. by repeat split.
Qed.

(** X7.  Once initialised, always initialised: after any further calls of
    [initialize], [add_plugin] and [process], returning or raising, the
    agent is still bound to a service its kernel holds, so that [process]
    never raises [AttributeError] again and its outcome is that of the
    endpoint. *)
Theorem initialised_agent_stays_ready
    (ep : Endpoint) (a : Agent) (sid : string) (cs : GoogleAIChatCompletion)
    (l : list Call) (m : string) :
  ready a sid cs ->
  exists sid' cs',
    ready (calls ep a l) sid' cs'
    /\ snd (process ep (calls ep a l) m)
       = snd (ep cs' (add_user_message (chat_history (calls ep a l)) m)
                 (mkSettings sid' (Some Auto)) (Some (kernel (calls ep a l)))).
Proof.
  revert a sid cs. induction l as [|c l IH]; intros a sid cs Hr.
  - exists sid, cs. change (calls ep a []) with a. split; [exact Hr|].
    rewrite (process_ready ep a sid cs m Hr). by destruct (ep cs _ _ _).
  - destruct (ready_call ep a sid cs c Hr) as (sid1 & cs1 & Hr1).
    rewrite calls_cons. by apply (IH _ sid1 cs1).
Qed.

Lemma initialised_agent_stays_ready_witness :
  exists sid' cs',
    ready (calls unreachable_endpoint (Main.writer_agent "k")
             [CallProcess "a"; CallInitialize "k2" "other"; CallProcess "b"])
          sid' cs'.
Proof.
  destruct (initialised_agent_stays_ready unreachable_endpoint
              (Main.writer_agent "k") default_service_id
              (mkService default_service_id "gemini-2.5-flash" "k")
              [CallProcess "a"; CallInitialize "k2" "other"; CallProcess "b"]
              "c" ltac:(repeat split)) as (sid' & cs' & H & _).
  exists sid', cs'. exact H.
Defined.

Lemma appends_any ep allowed :
  appends_only allowed ep -> appends_only (fun _ => true) ep.
Proof.
  intros H cs h st k. destruct (H cs h st k) as (added & Hh & _).
  exists added. split; [exact Hh|]. clear Hh.
  induction added as [|x l IH]; [reflexivity | exact IH].
Qed.

(** X8.  The conversation is append-only: with an endpoint that only
    appends to the history, the conversation before any sequence of calls,
    returning or raising, is a prefix of the conversation after it; no
    turn is removed, reordered or rewritten. *)
Theorem conversation_only_grows
    (ep : Endpoint) (a : Agent) (cs : list Call) :
  appends_only (fun _ => true) ep ->
  chat_history a `prefix_of` chat_history (calls ep a cs).
Proof.
  intros Hep. revert a. induction cs as [|c cs IH]; intros a; [done|].
  rewrite calls_cons. etrans; [|apply IH].
  destruct c as [key sid|p n|m]; cbn [call].
  - by rewrite initialize_history.
  - by rewrite add_plugin_history.
  - destruct (process_history ep _ a m Hep) as (added & _ & Hp).
    rewrite Hp. by apply prefix_app_r.
Qed.

Lemma conversation_only_grows_witness :
  chat_history (Main.research_agent "k")
  `prefix_of`
  chat_history
    (calls (tool_rounds 1) (Main.research_agent "k")
       [CallProcess "a"; CallAddPlugin WritingPluginObj "W"; CallProcess "b"]).
Proof.
  exact (conversation_only_grows (tool_rounds 1) (Main.research_agent "k")
           [CallProcess "a"; CallAddPlugin WritingPluginObj "W"; CallProcess "b"]
           (appends_any _ _ (scripted_appends_tools _ _))).
Defined.

Lemma count_role_other r added :
  r <> Tool ->
  forallb (fun x => is_tool (msg_role x)) added = true ->
  count_role r added = 0.
Proof.
  intros Hr Hall. apply count_role_none. revert Hall. apply forallb_impl.
  intros x Hx. apply bool_decide_eq_true in Hx. rewrite Hx.
  apply negb_true_iff, bool_decide_eq_false. congruence.
Qed.

(** X9.  With an endpoint that appends tool results only, every [process]
    call adds one user turn, whether it returns or raises, and one
    assistant turn only if it returns: over any sequence of calls the user
    turns grow by the number of [process] calls and the assistant turns by
    the number of those that returned.  A call that raised leaves its user
    turn without answer. *)
Theorem turns_count_calls (ep : Endpoint) (a : Agent) (cs : list Call) :
  appends_only is_tool ep ->
  count_role User (chat_history (calls ep a cs))
    = count_role User (chat_history a) + length (process_messages cs)
  /\ count_role Assistant (chat_history (calls ep a cs))
     = count_role Assistant (chat_history a) + returned_count ep a cs.
Proof.
  intros Hep. revert a. induction cs as [|c cs IH]; intros a.
  - change (calls ep a []) with a.
    split; symmetry; exact (Nat.add_0_r _).
  - rewrite calls_cons. destruct (IH (call ep a c)) as [Hu Ha].
    rewrite Hu, Ha. clear Hu Ha IH.
    destruct c as [key sid|p n|m]; cbn [call returned_count].
    + change (process_messages (CallInitialize key sid :: cs))
        with (process_messages cs).
      by rewrite initialize_history.
    + change (process_messages (CallAddPlugin p n :: cs))
        with (process_messages cs).
      by rewrite add_plugin_history.
    + change (process_messages (CallProcess m :: cs))
        with (m :: process_messages cs).
      destruct (process_history ep is_tool a m Hep) as (added & Hall & Hp).
      rewrite Hp.
      change (mkMsg User m :: added ++ ?t) with ([mkMsg User m] ++ added ++ t).
      rewrite !count_role_app.
      rewrite (count_role_other User added) by (done || exact Hall).
      rewrite (count_role_other Assistant added) by (done || exact Hall).
      change (count_role User [mkMsg User m]) with 1.
      change (count_role Assistant [mkMsg User m]) with 0.
      cbn [length].
      destruct (snd (process ep a m)) as [text|e]; cbn [returned].
      * change (count_role User [mkMsg Assistant text]) with 0.
        change (count_role Assistant [mkMsg Assistant text]) with 1. lia.
      * change (count_role User []) with 0.
        change (count_role Assistant []) with 0. lia.
Qed.

Lemma turns_count_calls_witness :
  count_role User
    (chat_history
       (calls unreachable_endpoint (Main.research_agent "k")
          [CallProcess "a"; CallProcess "b"])) = 2
  /\ count_role Assistant
       (chat_history
          (calls unreachable_endpoint (Main.research_agent "k")
             [CallProcess "a"; CallProcess "b"])) = 0.
Proof.
  exact (turns_count_calls unreachable_endpoint (Main.research_agent "k")
           [CallProcess "a"; CallProcess "b"] (scripted_appends_tools _ _)).
Defined.

(** X10.  Only an accepted [add_plugin] changes the registry of an
    agent: after any sequence of calls the registry is the one before it
    updated, in order, by the registrations the kernel accepted, each
    filed under the name given, or under the class name of the plugin
    when the name given is empty, a later one replacing an earlier one of
    the same name.  A registration under a name the kernel refuses (one
    with a character other than a letter, a digit or an underscore),
    [initialize] and [process], returning or raising, leave the registry
    alone. *)
Theorem registry_after_calls (ep : Endpoint) (a : Agent) (cs : list Call) :
  plugins (kernel (calls ep a cs))
  = fold_left (fun reg np => <[fst np := snd np]> reg) (registrations cs)
              (plugins (kernel a)).
Proof.
  revert a. induction cs as [|c cs IH]; intros a; [reflexivity|].
  rewrite calls_cons, IH. destruct c as [key sid|p n|m]; cbn [call].
  - change (registrations (CallInitialize key sid :: cs))
      with (registrations cs).
    by rewrite initialize_plugins.
  - unfold registrations at 2. cbn [omap list_omap].
    fold (registrations cs).
    unfold add_plugin, KernelOps.add_plugin.
    by destruct (KernelOps.valid_name (KernelOps.filed_name p n)).
  - change (registrations (CallProcess m :: cs)) with (registrations cs).
    by rewrite (process_frame ep a m).
Qed.

Example registry_after_refused_and_unnamed :
  plugins
    (kernel (calls unreachable_endpoint (Agent_init "A" "R" "S")
               [CallAddPlugin ResearchPluginObj "Research Plugin";
                CallAddPlugin DataAnalysisPluginObj ""]))
  = {[ "DataAnalysisPlugin" := DataAnalysisPluginObj ]}.
Proof. reflexivity. Qed.

(** * Further properties of the orchestrator *)

Section DictMore.

Context {V : Type}.
Implicit Types (d : list (string * V)) (k : string) (v : V).

Lemma dict_set_absent d k v :
  dict_get d k = None -> dict_set d k v = d ++ [(k, v)].
Proof.
  induction d as [|[k' v'] d IH]; cbn [dict_get dict_set]; [done|].
  destruct (decide (k' = k)); [discriminate|].
  intros H. by rewrite IH.
Qed.

Lemma dict_get_Some_elem d k v : dict_get d k = Some v -> (k, v) ∈ d.
Proof.
  induction d as [|[k' v'] d IH]; cbn [dict_get]; [discriminate|].
  destruct (decide (k' = k)) as [->|Hne].
  - intros [= ->]. apply elem_of_cons. by left.
  - intros H. apply elem_of_cons. right. by apply IH.
Qed.

Lemma dict_get_elem d k v :
  NoDup (dict_keys d) -> (k, v) ∈ d -> dict_get d k = Some v.
Proof.
  unfold dict_keys. induction d as [|[k' v'] d IH]; cbn [map fst dict_get].
  - intros _ H. by apply elem_of_nil in H.
  - intros Hnd H. apply NoDup_cons in Hnd as [Hk Hnd].
    apply elem_of_cons in H as [[= -> ->]|H].
    + by rewrite decide_True.
    + destruct (decide (k' = k)) as [->|Hne]; [|by apply IH].
      exfalso. apply Hk. apply list_elem_of_fmap. by exists (k, v).
Qed.

End DictMore.

Lemma get_agent_add_agent_cases
    (h : Heap) (o : Orchestrator) (a : loc) (n : string) :
  get_agent (add_agent h o a) n
  = if decide (n = name (h a)) then Some a else get_agent o n.
Proof.
  unfold get_agent, add_agent. cbn [agents].
  destruct (decide (n = name (h a))) as [->|Hne].
  - apply dict_get_set_eq.
  - by apply dict_get_set_ne.
Qed.

(** X11.  [add_agent] changes the lookup of one name only: [get_agent]
    after it returns the agent just added for that agent's name, and for
    every other name what it returned before. *)
Theorem get_agent_add_agent
    (h : Heap) (o : Orchestrator) (a : loc) (n : string) :
  get_agent (add_agent h o a) n
  = if decide (n = name (h a)) then Some a else get_agent o n.
Proof. exact (get_agent_add_agent_cases h o a n). Qed.

Lemma list_agents_add_fresh (h : Heap) (o : Orchestrator) (a : loc) :
  get_agent o (name (h a)) = None ->
  list_agents h (add_agent h o a)
  = list_agents h o ++ [mkSummary (name (h a)) (role (h a))].
Proof.
  intros H. unfold list_agents, add_agent, dict_values. cbn [agents].
  rewrite (dict_set_absent _ _ _ H). by rewrite !map_app.
Qed.

(** X12.  An agent whose name the orchestrator does not hold yet goes to
    the end of [list_agents], with its name and role; the entries already
    there keep their place. *)
Theorem add_agent_new_name_goes_last (h : Heap) (o : Orchestrator) (a : loc) :
  get_agent o (name (h a)) = None ->
  list_agents h (add_agent h o a)
  = list_agents h o ++ [mkSummary (name (h a)) (role (h a))].
Proof. exact (list_agents_add_fresh h o a). Qed.

Lemma add_agent_new_name_goes_last_witness :
  list_agents (Main.heap "k") (add_agent (Main.heap "k") Orchestrator_init 2)
  = [mkSummary "WriterAgent" "Content Writer"].
Proof.
  exact (add_agent_new_name_goes_last (Main.heap "k") Orchestrator_init 2 eq_refl).
Defined.

Lemma list_agents_add_agents h ls :
  NoDup (map (fun l => name (h l)) ls) ->
  forall o,
    (forall l, l ∈ ls -> get_agent o (name (h l)) = None) ->
    list_agents h (add_agents h o ls) = list_agents h o ++ map (summary h) ls.
Proof.
  induction ls as [|l ls IH]; intros Hnd o Ho.
  - cbn. by rewrite app_nil_r.
  - cbn [map] in Hnd. apply NoDup_cons in Hnd as [Hl Hnd].
    change (add_agents h o (l :: ls)) with (add_agents h (add_agent h o l) ls).
    rewrite IH; [| exact Hnd |].
    + rewrite list_agents_add_fresh
        by (apply Ho, elem_of_cons; by left).
      by rewrite <- app_assoc.
    + intros l' Hl'. rewrite get_agent_add_agent_cases.
      destruct (decide (name (h l') = name (h l))) as [E|E].
      * exfalso. apply Hl. rewrite <- E. apply list_elem_of_fmap. by exists l'.
      * apply Ho, elem_of_cons. by right.
Qed.

(** X13.  [list_agents] is in insertion order: for agents of distinct
    names added one after the other to a new orchestrator, it lists their
    names and roles in the order of the [add_agent] calls. *)
Theorem list_agents_insertion_order (h : Heap) (ls : list loc) :
  NoDup (map (fun l => name (h l)) ls) ->
  list_agents h (add_agents h Orchestrator_init ls) = map (summary h) ls.
Proof.
  intros Hnd. by rewrite (list_agents_add_agents h ls Hnd Orchestrator_init).
Qed.

Lemma list_agents_insertion_order_witness :
  list_agents (Main.heap "k") (add_agents (Main.heap "k") Orchestrator_init [3; 0])
  = [mkSummary "Coordinator" "Task Coordinator";
     mkSummary "ResearchAgent" "Research Specialist"].
Proof.
  refine (list_agents_insertion_order (Main.heap "k") [3; 0] _).
  apply (bool_decide_unpack _). vm_compute. exact I.
Defined.

(** X14.  [list_agents] and [get_agent] agree: on an orchestrator whose
    keys are the names of its agents, a name and role are listed exactly
    when [get_agent] of the name returns an agent of that role. *)
Theorem list_agents_matches_get_agent
    (h : Heap) (o : Orchestrator) (n r : string) :
  orch_wf h o ->
  mkSummary n r ∈ list_agents h o
  <-> exists a, get_agent o n = Some a /\ role (h a) = r.
Proof.
  intros [Hnd Hall]. unfold list_agents, dict_values, get_agent. split.
  - intros H. apply list_elem_of_fmap in H as (a & [= Hn Hr] & Ha).
    apply list_elem_of_fmap in Ha as ([k a'] & Ha' & Hin). cbn in Ha'. subst a'.
    exists a. split; [|by symmetry].
    apply dict_get_elem; [exact Hnd|].
    rewrite Forall_forall in Hall. specialize (Hall _ Hin). cbn in Hall.
    by rewrite Hn, Hall.
  - intros (a & Hget & Hr). apply dict_get_Some_elem in Hget.
    rewrite Forall_forall in Hall. pose proof (Hall _ Hget) as Hname.
    cbn in Hname. apply list_elem_of_fmap. exists a.
    split; [by rewrite Hname, Hr|].
    apply list_elem_of_fmap. by exists (n, a).
Qed.

Lemma list_agents_matches_get_agent_witness :
  mkSummary "AnalystAgent" "Data Analyst"
  ∈ list_agents (Main.heap "k") (Main.orchestrator "k").
Proof.
  apply (proj2 (list_agents_matches_get_agent (Main.heap "k")
                  (Main.orchestrator "k") "AnalystAgent" "Data Analyst"
                  (orch_wf_add_agents _ _))).
  exists 1. split; reflexivity.
Defined.

(** X15.  Talking to an agent does not change what [list_agents] shows:
    a [process] call on any agent, returning or raising, leaves every
    listed name and role as it was. *)
Theorem list_agents_after_process
    (ep : Endpoint) (h : Heap) (o : Orchestrator) (l : loc) (m : string) :
  list_agents (fst (on_agent (fun a => process ep a m) h l)) o
  = list_agents h o.
Proof.
  unfold list_agents, on_agent.
  destruct (process ep (h l) m) as [a' r] eqn:E. cbn [fst].
  pose proof (process_frame ep (h l) m) as Hf. rewrite E in Hf. cbn [fst] in Hf.
  apply map_ext. intros agent. unfold heap_set.
  destruct (decide (agent = l)) as [->|]; [|reflexivity].
  by rewrite Hf.
Qed.

(** * The interactive loop of [demo-2.py] *)

Lemma prefix_inv (p s : string) :
  String.prefix p s = true -> exists rest, s = p +:+ rest.
Proof.
  revert s. induction p as [|c p IH]; intros s H.
  - by exists s.
  - destruct s as [|c' s]; [discriminate H|]. cbn [String.prefix] in H.
    destruct (ascii_dec c c') as [<-|]; [|discriminate H].
    destruct (IH s H) as [rest ->]. by exists rest.
Qed.

Lemma split_nonempty (sep : ascii) (s : string) :
  exists piece pieces, Text.split sep s = piece :: pieces.
Proof.
  induction s as [|c s (piece & pieces & IH)]; cbn [Text.split]; [by eauto|].
  destruct (Ascii.eqb c sep); [by eauto|]. rewrite IH. by eauto.
Qed.

(** After "switch:" the name asked for is the text up to the next colon. *)
Lemma split_switch (rest : string) :
  Text.split ":" ("switch:" +:+ rest) = "switch" :: Text.split ":" rest.
Proof. reflexivity. Qed.

Lemma switch_parses (user_input : string) :
  Text.startswith user_input "switch:" = true ->
  exists rest piece pieces,
    user_input = "switch:" +:+ rest
    /\ Text.split ":" rest = piece :: pieces
    /\ Text.split ":" user_input !! 1 = Some piece.
Proof.
  intros H. apply prefix_inv in H as [rest ->].
  destruct (split_nonempty ":" rest) as (piece & pieces & Hs).
  exists rest, piece, pieces. repeat split; [exact Hs|].
  by rewrite split_switch, Hs.
Qed.

Section ShellFacts.

Variables (ep : Endpoint) (orchestrator : Orchestrator).

Lemma step_exit st line :
  Shell.is_exit line = true ->
  Shell.step ep orchestrator st line
  = (Shell.print (Shell.write st (Shell.prompt st)) "Goodbye!", Return Stop).
Proof. unfold Shell.is_exit, Shell.step. by intros ->. Qed.

Lemma step_directive st line :
  Shell.is_message line = false ->
  sh_heap (fst (Shell.step ep orchestrator st line)) = sh_heap st
  /\ returned (snd (Shell.step ep orchestrator st line)) = true.
Proof.
  unfold Shell.is_message, Shell.is_exit, Shell.step.
  destruct (String.eqb (Str.lower (Text.strip line)) "exit");
    [intros _; split; reflexivity|].
  destruct (Text.startswith (Text.strip line) "switch:") eqn:Hsw.
  - intros _. destruct (switch_parses _ Hsw) as (rest & piece & pieces & _ & _ & ->).
    destruct (get_agent orchestrator (Text.strip piece)); split; reflexivity.
  - destruct (String.eqb (Text.strip line) "");
      [intros _; split; reflexivity | discriminate].
Qed.

Lemma step_message st line :
  Shell.is_message line = true ->
  let st1 :=
    Shell.write (Shell.write st (Shell.prompt st))
      (Str.nl +:+ Shell.reply_mark +:+ " "
         +:+ name (sh_heap st (current_agent st)) +:+ ": ") in
  Shell.step ep orchestrator st line
  = match process ep (sh_heap st (current_agent st)) (Text.strip line) with
    | (a, Raise e) =>
        (Shell.set_heap st1 (heap_set (sh_heap st) (current_agent st) a),
         Raise e)
    | (a, Return text) =>
        (Shell.print
           (Shell.set_heap st1 (heap_set (sh_heap st) (current_agent st) a))
           (text +:+ Str.nl),
         Return Next)
    end.
Proof.
  unfold Shell.is_message, Shell.is_exit, Shell.step.
  destruct (String.eqb (Str.lower (Text.strip line)) "exit"); [discriminate|].
  destruct (Text.startswith (Text.strip line) "switch:"); [discriminate|].
  destruct (String.eqb (Text.strip line) ""); [discriminate|]. intros _.
  unfold on_agent. cbn [sh_heap current_agent Shell.write].
  by destruct (process ep _ _) as [a [text|e]].
Qed.

End ShellFacts.

Lemma step_raise
    (ep : Endpoint) (orchestrator : Orchestrator) (st : Shell)
    (line : string) (e : Exn) :
  snd (Shell.step ep orchestrator st line) = Raise e ->
  Shell.is_message line = true
  /\ snd (process ep (sh_heap st (current_agent st)) (Text.strip line))
     = Raise e.
Proof.
  intros H. destruct (Shell.is_message line) eqn:Hm.
  - split; [reflexivity|]. rewrite (step_message ep orchestrator st line Hm) in H.
    cbn zeta in H.
    destruct (process ep _ _) as [a [text|e']]; cbn [snd] in *;
      [discriminate H | by injection H as ->].
  - destruct (step_directive ep orchestrator st line Hm) as [_ Hr].
    by rewrite H in Hr.
Qed.

(** X16.  On an ASCII line, a pass of the loop raises only when [process]
    does: an exit
    line, a switch directive (whatever follows "switch:", the name always
    parses) and a blank line never raise; when a pass raises, the line was
    a message and the exception is the one [process] raised for it on the
    current agent. *)
Theorem shell_step_raises_only_from_process
    (ep : Endpoint) (orchestrator : Orchestrator) (st : Shell)
    (line : string) (e : Exn) :
  Text.is_ascii line = true ->
  snd (Shell.step ep orchestrator st line) = Raise e ->
  Shell.is_message line = true
  /\ snd (process ep (sh_heap st (current_agent st)) (Text.strip line))
     = Raise e.
Proof. intros _. exact (step_raise ep orchestrator st line e). Qed.

Lemma shell_step_raises_only_from_process_witness :
  Shell.is_message "hello" = true
  /\ snd (process unreachable_endpoint (Main.coordinator_agent "k") "hello")
     = Raise (mkExn "ServiceResponseException" "connection refused").
Proof.
  exact (shell_step_raises_only_from_process unreachable_endpoint
           (Main.orchestrator "k") (mkShell (Main.heap "k") 3 []) "hello"
           (mkExn "ServiceResponseException" "connection refused")
           eq_refl eq_refl).
Defined.

(** X17.  Directives touch no agent: an ASCII line that is an exit, a switch
    (to a known or an unknown name) or blank after stripping leaves every
    agent object, its conversation included, exactly as it was, and the
    pass returns. *)
Theorem shell_directives_leave_agents
    (ep : Endpoint) (orchestrator : Orchestrator) (st : Shell) (line : string) :
  Text.is_ascii line = true ->
  Shell.is_message line = false ->
  sh_heap (fst (Shell.step ep orchestrator st line)) = sh_heap st
  /\ returned (snd (Shell.step ep orchestrator st line)) = true.
Proof. intros _. apply step_directive. Qed.

Lemma shell_directives_leave_agents_witness :
  sh_heap (fst (Shell.step unreachable_endpoint (Main.orchestrator "k")
                  (mkShell (Main.heap "k") 3 []) "switch: Nobody"))
  = Main.heap "k".
Proof.
  exact (proj1 (shell_directives_leave_agents unreachable_endpoint
                  (Main.orchestrator "k") (mkShell (Main.heap "k") 3 [])
                  "switch: Nobody" eq_refl eq_refl)).
Defined.

Section ShellSwitch.

Variables (ep : Endpoint) (orchestrator : Orchestrator).

Lemma step_switch st line rest :
  Shell.is_exit line = false ->
  Text.strip line = "switch:" +:+ rest ->
  let agent_name := Text.strip (default "" (head (Text.split ":" rest))) in
  let st1 := Shell.write st (Shell.prompt st) in
  Shell.step ep orchestrator st line
  = match get_agent orchestrator agent_name with
    | Some agent =>
        (Shell.print (Shell.set_current st1 agent)
           (Shell.switched_mark +:+ " Switched to " +:+ agent_name +:+ Str.nl),
         Return Next)
    | None =>
        (Shell.print st1
           (Shell.not_found_mark +:+ " Agent '" +:+ agent_name
              +:+ "' not found" +:+ Str.nl),
         Return Next)
    end.
Proof.
  unfold Shell.is_exit, Shell.step. intros -> Hs. rewrite Hs.
  unfold Text.startswith. rewrite prefix_app, split_switch.
  destruct (split_nonempty ":" rest) as (piece & pieces & ->).
  reflexivity.
Qed.

Lemma step_current st line :
  current_agent (fst (Shell.step ep orchestrator st line)) = current_agent st
  \/ exists n,
       get_agent orchestrator n
       = Some (current_agent (fst (Shell.step ep orchestrator st line))).
Proof.
  destruct (Shell.is_message line) eqn:Hm.
  - left. rewrite (step_message ep orchestrator st line Hm). cbn zeta.
    by destruct (process ep _ _) as [a [text|e]].
  - unfold Shell.is_message in Hm.
    destruct (Shell.is_exit line) eqn:He;
      [left; by rewrite (step_exit ep orchestrator st line He)|].
    destruct (Text.startswith (Text.strip line) "switch:") eqn:Hsw.
    + apply prefix_inv in Hsw as [rest Hs].
      rewrite (step_switch st line rest He Hs). cbn zeta.
      destruct (get_agent orchestrator _) as [agent|] eqn:Hg; [|by left].
      right. eexists. exact Hg.
    + left. unfold Shell.is_exit in He. unfold Shell.step.
      rewrite He, Hsw. cbn in Hm.
      destruct (String.eqb (Text.strip line) ""); [reflexivity|discriminate Hm].
Qed.

End ShellSwitch.

(** X18.  A switch directive, an ASCII line that is "switch:" followed by
    anything once stripped, makes the
    agent registered under the text up to the next colon, stripped, the
    current one and confirms it on the output; when no agent bears that
    name the current agent stays and the output says the agent was not
    found.  In both cases the pass goes on to the next line. *)
Theorem shell_switch_directive
    (ep : Endpoint) (orchestrator : Orchestrator) (st : Shell)
    (line rest : string) :
  Text.is_ascii line = true ->
  Text.strip line = "switch:" +:+ rest ->
  let agent_name := Text.strip (default "" (head (Text.split ":" rest))) in
  let st' := fst (Shell.step ep orchestrator st line) in
  snd (Shell.step ep orchestrator st line) = Return Next
  /\ current_agent st'
     = default (current_agent st) (get_agent orchestrator agent_name)
  /\ last (written st')
     = Some (match get_agent orchestrator agent_name with
             | Some _ =>
                 (Shell.switched_mark +:+ " Switched to " +:+ agent_name
                    +:+ Str.nl) +:+ Str.nl
             | None =>
                 (Shell.not_found_mark +:+ " Agent '" +:+ agent_name
                    +:+ "' not found" +:+ Str.nl) +:+ Str.nl
             end).
Proof.
  intros _ Hs agent_name st'. subst st'.
  assert (Shell.is_exit line = false) as He
    by (unfold Shell.is_exit; by rewrite Hs).
  rewrite (step_switch ep orchestrator st line rest He Hs). cbn zeta.
  fold agent_name.
  destruct (get_agent orchestrator agent_name);
    cbn [fst snd current_agent written Shell.print Shell.write Shell.set_current
         default from_option];
    repeat split; apply last_snoc.
Qed.

Lemma shell_switch_directive_witness :
  current_agent
    (fst (Shell.step unreachable_endpoint (Main.orchestrator "k")
            (mkShell (Main.heap "k") 3 []) "  switch: WriterAgent : now "))
  = 2.
Proof.
  exact (proj1 (proj2 (shell_switch_directive unreachable_endpoint
           (Main.orchestrator "k") (mkShell (Main.heap "k") 3 [])
           "  switch: WriterAgent : now " " WriterAgent : now"
           eq_refl eq_refl))).
Defined.

(** X19.  An ASCII line that is no directive goes, stripped, to the current
    agent and to no other: the current agent becomes what [process]
    leaves, every other agent is untouched, and the current agent stays
    the current one.  When [process] returns, its text is what is written
    last. *)
Theorem shell_message_to_current_agent
    (ep : Endpoint) (orchestrator : Orchestrator) (st : Shell) (line : string) :
  Text.is_ascii line = true ->
  Shell.is_message line = true ->
  let st' := fst (Shell.step ep orchestrator st line) in
  let served := process ep (sh_heap st (current_agent st)) (Text.strip line) in
  current_agent st' = current_agent st
  /\ sh_heap st' (current_agent st) = fst served
  /\ (forall l, l <> current_agent st -> sh_heap st' l = sh_heap st l)
  /\ match snd served with
     | Return text =>
         snd (Shell.step ep orchestrator st line) = Return Next
         /\ last (written st') = Some ((text +:+ Str.nl) +:+ Str.nl)
     | Raise e => snd (Shell.step ep orchestrator st line) = Raise e
     end.
Proof.
  intros _ Hm st' served. subst st' served.
  rewrite (step_message ep orchestrator st line Hm). cbn zeta.
  destruct (process ep _ _) as [a [text|e]];
    cbn [fst snd current_agent sh_heap written Shell.print Shell.write
         Shell.set_heap];
    rewrite heap_set_eq; repeat split;
    try (intros l Hl; by apply heap_set_ne); apply last_snoc.
Qed.

Lemma shell_message_to_current_agent_witness :
  sh_heap
    (fst (Shell.step (scripted [] (Return "fine")) (Main.orchestrator "k")
            (mkShell (Main.heap "k") 3 []) " hello ")) 3
  = fst (process (scripted [] (Return "fine")) (Main.coordinator_agent "k") "hello").
Proof.
  exact (proj1 (proj2 (shell_message_to_current_agent
           (scripted [] (Return "fine")) (Main.orchestrator "k")
           (mkShell (Main.heap "k") 3 []) " hello " eq_refl eq_refl))).
Defined.

Section ShellLoop.

Variables (ep : Endpoint) (orchestrator : Orchestrator).

Lemma loop_cons st line rest :
  Shell.loop ep orchestrator st (line :: rest)
  = match Shell.step ep orchestrator st line with
    | (st', Return Stop) => (st', Return tt)
    | (st', Return Next) => Shell.loop ep orchestrator st' rest
    | (st', Raise e) => (st', Raise e)
    end.
Proof. reflexivity. Qed.

Lemma step_stop st line :
  snd (Shell.step ep orchestrator st line) = Return Stop ->
  Shell.is_exit line = true.
Proof.
  intros H. destruct (Shell.is_exit line) eqn:He; [reflexivity|].
  exfalso. destruct (Shell.is_message line) eqn:Hm.
  - rewrite (step_message ep orchestrator st line Hm) in H. cbn zeta in H.
    destruct (process ep _ _) as [a [text|e]]; discriminate H.
  - unfold Shell.is_message in Hm. rewrite He in Hm. cbn [negb andb] in Hm.
    destruct (Text.startswith (Text.strip line) "switch:") eqn:Hsw.
    + apply prefix_inv in Hsw as [rest Hs].
      rewrite (step_switch ep orchestrator st line rest He Hs) in H.
      cbn zeta in H. destruct (get_agent orchestrator _); discriminate H.
    + unfold Shell.is_exit in He. unfold Shell.step in H.
      rewrite He, Hsw in H.
      destruct (String.eqb (Text.strip line) ""); discriminate.
Qed.

End ShellLoop.

(** X20.  Nothing is read after an exit line: for ASCII lines, the last
    being "exit" once stripped, in any letter case, the run over the lines
    before it,
    the line and any lines after it is the run that stops at the line. *)
Theorem shell_loop_stops_at_exit
    (ep : Endpoint) (orchestrator : Orchestrator) (st : Shell)
    (before : list string) (line : string) (after : list string) :
  forallb Text.is_ascii (before ++ [line]) = true ->
  Shell.is_exit line = true ->
  Shell.loop ep orchestrator st (before ++ line :: after)
  = Shell.loop ep orchestrator st (before ++ [line]).
Proof.
  intros _ He. revert st. induction before as [|l before IH]; intros st.
  - cbn [app]. by rewrite !loop_cons, (step_exit ep orchestrator st line He).
  - cbn [app]. rewrite !loop_cons.
    destruct (Shell.step ep orchestrator st l) as [st' [[]|e]];
      [apply IH | reflexivity | reflexivity].
Qed.

Lemma shell_loop_stops_at_exit_witness :
  Shell.loop (scripted [] (Return "fine")) (Main.orchestrator "k")
    (mkShell (Main.heap "k") 3 []) (["hello"] ++ " Exit " :: ["more"; "lines"])
  = Shell.loop (scripted [] (Return "fine")) (Main.orchestrator "k")
      (mkShell (Main.heap "k") 3 []) (["hello"] ++ [" Exit "]).
Proof.
  exact (shell_loop_stops_at_exit (scripted [] (Return "fine"))
           (Main.orchestrator "k") (mkShell (Main.heap "k") 3 [])
           ["hello"] " Exit " ["more"; "lines"] eq_refl eq_refl).
Defined.

(** X21.  How a session over ASCII lines ends.  The loop returns only at
    an exit line; with
    no exit line among the input it ends by an exception, which is either
    the [EOFError] of [input] when the lines run out or the exception a
    [process] call raised: nothing in the loop catches it. *)
Theorem shell_loop_end
    (ep : Endpoint) (orchestrator : Orchestrator) (st : Shell)
    (inputs : list string) :
  forallb Text.is_ascii inputs = true ->
  match snd (Shell.loop ep orchestrator st inputs) with
  | Return _ => existsb Shell.is_exit inputs = true
  | Raise e =>
      e = EOFError \/ exists a m, snd (process ep a m) = Raise e
  end.
Proof.
  intros _. revert st. induction inputs as [|line rest IH]; intros st.
  - by left.
  - rewrite loop_cons.
    destruct (Shell.step ep orchestrator st line) as [st' [[]|e]] eqn:E.
    + specialize (IH st').
      destruct (snd (Shell.loop ep orchestrator st' rest));
        [cbn [existsb]; rewrite IH; apply orb_true_r | exact IH].
    + cbn [snd existsb].
      rewrite (step_stop ep orchestrator st line); [reflexivity|by rewrite E].
    + cbn [snd]. right.
      destruct (step_raise ep orchestrator st line e)
        as [_ H]; [by rewrite E|]. eauto.
Qed.

Lemma shell_loop_end_witness :
  existsb Shell.is_exit ["hello"; "switch:WriterAgent"; " Exit "] = true.
Proof.
  exact (shell_loop_end (scripted [] (Return "fine")) (Main.orchestrator "k")
           (mkShell (Main.heap "k") 3 [])
           ["hello"; "switch:WriterAgent"; " Exit "] eq_refl).
Defined.

Lemma get_agent_value (o : Orchestrator) (n : string) (a : loc) :
  get_agent o n = Some a -> a ∈ dict_values (agents o).
Proof.
  intros H. apply dict_get_Some_elem in H. unfold dict_values.
  apply list_elem_of_fmap. by exists (n, a).
Qed.

(** X22.  The current agent is always one the orchestrator holds: if it
    is so when the loop starts, it is so when the loop ends, however the
    session went, since only a successful lookup changes it. *)
Theorem shell_current_agent_registered
    (ep : Endpoint) (orchestrator : Orchestrator) (st : Shell)
    (inputs : list string) :
  current_agent st ∈ dict_values (agents orchestrator) ->
  current_agent (fst (Shell.loop ep orchestrator st inputs))
    ∈ dict_values (agents orchestrator).
Proof.
  revert st. induction inputs as [|line rest IH]; intros st Hst; [exact Hst|].
  rewrite loop_cons.
  assert (current_agent (fst (Shell.step ep orchestrator st line))
            ∈ dict_values (agents orchestrator)) as Hstep.
  { destruct (step_current ep orchestrator st line) as [->|[n Hn]];
      [exact Hst | by eapply get_agent_value]. }
  destruct (Shell.step ep orchestrator st line) as [st' [[]|e]];
    [by apply IH | exact Hstep | exact Hstep].
Qed.

Lemma shell_current_agent_registered_witness :
  current_agent
    (fst (Shell.main (scripted [] (Return "fine")) "k"
            ["switch:AnalystAgent"; "numbers?"; "switch:Ghost"; "exit"]))
    ∈ dict_values (agents (Main.orchestrator "k")).
Proof.
  refine (shell_current_agent_registered (scripted [] (Return "fine"))
            (Main.orchestrator "k") (mkShell (Main.heap "k") 3 [])
            ["switch:AnalystAgent"; "numbers?"; "switch:Ghost"; "exit"] _).
  apply (bool_decide_unpack _). vm_compute. exact I.
Defined.

Lemma step_round_trip ep orchestrator st line fl :
  appends_only is_tool ep ->
  snd (Shell.step ep orchestrator st line) = Return fl ->
  forall l,
    exists body,
      chat_history (sh_heap (fst (Shell.step ep orchestrator st line)) l)
      = chat_history (sh_heap st l) ++ body
      /\ interleaved Idle body = true.
Proof.
  intros Hep Hret l. destruct (Shell.is_message line) eqn:Hm.
  - rewrite (step_message ep orchestrator st line Hm) in *. cbn zeta in *.
    destruct (process_history ep is_tool (sh_heap st (current_agent st))
                (Text.strip line) Hep) as (added & Hall & Hp).
    destruct (process ep _ _) as [a [text|e]]; [|discriminate Hret].
    cbn [fst snd sh_heap Shell.print Shell.write Shell.set_heap] in *.
    unfold heap_set. destruct (decide (l = current_agent st)) as [->|].
    + rewrite Hp. eexists. split; [reflexivity|].
      cbn [interleaved msg_role]. by apply interleaved_tools.
    + exists []. by rewrite app_nil_r.
  - destruct (step_directive ep orchestrator st line Hm) as [-> _].
    exists []. by rewrite app_nil_r.
Qed.

(** X23.  A session that ends normally leaves whole round trips only:
    with an endpoint that appends tool results only, when the loop returns
    (at an exit line), the conversation of every agent is the one it had
    at the start followed by complete round trips, each a user turn, tool
    results, an assistant turn; a failed call would have ended the
    session instead. *)
Theorem shell_loop_round_trips
    (ep : Endpoint) (orchestrator : Orchestrator) (st : Shell)
    (inputs : list string) (l : loc) :
  appends_only is_tool ep ->
  snd (Shell.loop ep orchestrator st inputs) = Return tt ->
  exists body,
    chat_history (sh_heap (fst (Shell.loop ep orchestrator st inputs)) l)
    = chat_history (sh_heap st l) ++ body
    /\ interleaved Idle body = true.
Proof.
  intros Hep. revert st. induction inputs as [|line rest IH]; intros st Hret;
    [discriminate Hret|].
  rewrite loop_cons in *.
  pose proof (step_round_trip ep orchestrator st line) as Hstep.
  destruct (Shell.step ep orchestrator st line) as [st' [fl|e]];
    [|discriminate Hret].
  destruct (Hstep fl Hep eq_refl l) as (body & Hb & Hi). cbn [fst] in Hb.
  destruct fl.
  - destruct (IH st' Hret) as (body' & Hb' & Hi').
    exists (body ++ body'). rewrite Hb', Hb, <- app_assoc.
    split; [reflexivity | by apply interleaved_app].
  - exists body. by split.
Qed.

Lemma shell_loop_round_trips_witness :
  exists body,
    chat_history
      (sh_heap (fst (Shell.main (tool_rounds 1) "k"
                       ["hello"; "switch:WriterAgent"; "write"; "exit"])) 2)
    = chat_history (Main.writer_agent "k") ++ body
    /\ interleaved Idle body = true.
Proof.
  exact (shell_loop_round_trips (tool_rounds 1) (Main.orchestrator "k")
           (mkShell (Main.heap "k") 3 [])
           ["hello"; "switch:WriterAgent"; "write"; "exit"] 2
           (scripted_appends_tools _ _) eq_refl).
Defined.

(** * The loop of [demo-1.py] *)

(** X24.  When the loop of [demo-1.py], reading ASCII lines, returns (at
    an exit line), with an
    endpoint that appends tool results only, the conversation is the one
    at the start followed by complete round trips, and its user turns are
    the lines read before the exit line, stripped, the blank ones left
    out, in the order read. *)
Theorem demo1_loop_round_trips
    (ep : Endpoint) (chat_service : GoogleAIChatCompletion)
    (st : Demo1Main.State) (inputs : list string) :
  forallb Text.is_ascii inputs = true ->
  appends_only is_tool ep ->
  snd (Demo1Main.loop ep chat_service st inputs) = Return tt ->
  exists body,
    Demo1Main.chat_history (fst (Demo1Main.loop ep chat_service st inputs))
    = Demo1Main.chat_history st ++ body
    /\ interleaved Idle body = true
    /\ map msg_content (filter (fun x => msg_role x = User) body)
       = Demo1Main.messages inputs.
Proof.
  intros _ Hep. revert st.
  induction inputs as [|line rest IH]; intros st Hret;
    [discriminate Hret|].
  cbn [Demo1Main.loop Demo1Main.messages Demo1Main.chat_history
       Demo1Main.written] in *.
  destruct (String.eqb (Str.lower (Text.strip line)) "exit").
  - exists []. cbn. by rewrite app_nil_r.
  - destruct (String.eqb (Text.strip line) "").
    + destruct (IH _ Hret) as (body & Hb & Hi & Hm). exists body.
      by rewrite Hb.
    + destruct (demo1_turn_history ep is_tool chat_service
                  (Demo1Main.chat_history st) (Text.strip line) Hep)
        as (added & Hall & Hp).
      destruct (Demo1.turn ep chat_service _ _) as [h [text|e]];
        [|discriminate Hret].
      cbn [fst snd] in Hp. subst h.
      destruct (IH _ Hret) as (body & Hb & Hi & Hm).
      cbn [Demo1Main.chat_history] in Hb.
      exists ((mkMsg User (Text.strip line) :: added ++ [mkMsg Assistant text])
                ++ body).
      rewrite Hb. split; [by rewrite <- app_assoc|]. split.
      * apply interleaved_app; [|exact Hi].
        cbn [app interleaved msg_role]. by apply interleaved_tools.
      * assert (filter (fun x => msg_role x = User) added = []) as Hf0.
        { apply length_zero_iff_nil. by apply (count_role_other User added). }
        rewrite filter_app, map_app, Hm.
        change (mkMsg User (Text.strip line) :: added ++ [mkMsg Assistant text])
          with ([mkMsg User (Text.strip line)] ++ added ++ [mkMsg Assistant text]).
        by rewrite !filter_app, Hf0.
Qed.

Lemma demo1_loop_round_trips_witness :
  exists body,
    Demo1Main.chat_history
      (fst (Demo1Main.main (tool_rounds 1) "k" [" hi "; ""; "EXIT"; "late"]))
    = Demo1.initial_history ++ body
    /\ interleaved Idle body = true
    /\ map msg_content (filter (fun x => msg_role x = User) body) = ["hi"].
Proof.
  exact (demo1_loop_round_trips (tool_rounds 1) (Demo1.gemini "k")
           (Demo1Main.mkState Demo1.initial_history [])
           [" hi "; ""; "EXIT"; "late"] eq_refl
           (scripted_appends_tools _ _) eq_refl).
Defined.

(** X25.  How a run of [demo-1.py] over ASCII lines ends: it returns only
    at an exit line;
    otherwise it ends by the [EOFError] of [input] when the lines run out,
    or by the exception the endpoint raised, which nothing catches. *)
Theorem demo1_loop_end
    (ep : Endpoint) (chat_service : GoogleAIChatCompletion)
    (st : Demo1Main.State) (inputs : list string) :
  forallb Text.is_ascii inputs = true ->
  match snd (Demo1Main.loop ep chat_service st inputs) with
  | Return _ => existsb Shell.is_exit inputs = true
  | Raise e =>
      e = EOFError \/ exists cs h s k, snd (ep cs h s k) = Raise e
  end.
Proof.
  intros _. revert st.
  induction inputs as [|line rest IH]; intros st; [by left|].
  cbn [Demo1Main.loop existsb]. unfold Shell.is_exit at 1.
  destruct (String.eqb (Str.lower (Text.strip line)) "exit"); [reflexivity|].
  cbn [orb]. destruct (String.eqb (Text.strip line) ""); [apply IH|].
  unfold Demo1.turn.
  destruct (ep chat_service _ _ _) as [h [text|e]] eqn:E.
  - apply IH.
  - right. do 4 eexists. by rewrite E.
Qed.

Lemma demo1_loop_end_witness :
  existsb Shell.is_exit ["hello"; " Exit "] = true.
Proof.
  exact (demo1_loop_end (scripted [] (Return "fine")) (Demo1.gemini "k")
           (Demo1Main.mkState Demo1.initial_history [])
           ["hello"; " Exit "] eq_refl).
Defined.

(** X26.  The exceptions of [process]: it raises [AttributeError] or
    [KernelServiceNotFoundError] only for an agent whose service binding is
    missing, and otherwise exactly what the endpoint raised; it has no
    exception of its own for a failed completion. *)
Theorem process_exceptions (ep : Endpoint) (a : Agent) (m : string) (e : Exn) :
  snd (process ep a m) = Raise e ->
  exn_class e = "AttributeError"
  \/ exn_class e = "KernelServiceNotFoundError"
  \/ exists cs h st k, snd (ep cs h st k) = Raise e.
Proof. exact (process_raise_origin ep a m e). Qed.

Lemma process_exceptions_witness :
  exn_class (AttributeError "service_id") = "AttributeError"
  \/ exn_class (AttributeError "service_id") = "KernelServiceNotFoundError"
  \/ exists cs h st k,
       snd (unreachable_endpoint cs h st k) = Raise (AttributeError "service_id").
Proof.
  exact (process_exceptions unreachable_endpoint (Agent_init "A" "R" "S") "hi"
           (AttributeError "service_id") eq_refl).
Defined.

(** X27.  Every orchestrator built from a new one by [add_agent] calls
    has distinct keys, each the name of the agent it leads to, and a
    [process] call on any agent keeps it so. *)
Theorem orchestrator_keys_are_names
    (ep : Endpoint) (h : Heap) (ls : list loc) (l : loc) (m : string) :
  orch_wf h (add_agents h Orchestrator_init ls)
  /\ orch_wf (fst (on_agent (fun a => process ep a m) h l))
             (add_agents h Orchestrator_init ls).
Proof.
  split; [apply orch_wf_add_agents | apply orch_wf_process, orch_wf_add_agents].
Qed.

Lemma rstrip_cons (c : ascii) (t : string) :
  Text.is_space c = false ->
  exists t', Text.rstrip (String c t) = String c t'.
Proof.
  intros Hc. cbn [Text.rstrip]. rewrite Hc.
  destruct (Text.rstrip t); eauto.
Qed.

(** X28.  The switch directive is matched with its exact spelling, unlike
    "exit": an ASCII line that starts with "Switch:", capitalised, is no
    directive.  It is sent to the current agent as a message, and the
    current agent stays. *)
Theorem shell_switch_is_case_sensitive
    (ep : Endpoint) (orchestrator : Orchestrator) (st : Shell) (rest : string) :
  Text.is_ascii rest = true ->
  Shell.is_message ("Switch:" +:+ rest) = true
  /\ current_agent (fst (Shell.step ep orchestrator st ("Switch:" +:+ rest)))
     = current_agent st
  /\ sh_heap (fst (Shell.step ep orchestrator st ("Switch:" +:+ rest)))
             (current_agent st)
     = fst (process ep (sh_heap st (current_agent st))
              (Text.strip ("Switch:" +:+ rest))).
Proof.
  intros _.
  assert (Shell.is_message ("Switch:" +:+ rest) = true) as Hm.
  { unfold Shell.is_message, Shell.is_exit, Text.strip.
    change ("Switch:" +:+ rest) with (String "S" ("witch:" +:+ rest)).
    cbn [Text.lstrip].
    change (Text.is_space "S") with false. cbn match.
    destruct (rstrip_cons "S" ("witch:" +:+ rest) eq_refl) as [t' ->].
    reflexivity. }
  split; [exact Hm|].
  rewrite (step_message ep orchestrator st _ Hm). cbn zeta.
  destruct (process ep _ _) as [a [text|e]];
    cbn [fst current_agent sh_heap Shell.print Shell.write Shell.set_heap];
    by rewrite heap_set_eq.
Qed.

Lemma shell_switch_is_case_sensitive_witness :
  Shell.is_message "Switch:WriterAgent" = true.
Proof.
  exact (proj1 (shell_switch_is_case_sensitive unreachable_endpoint
                  (Main.orchestrator "k") (mkShell (Main.heap "k") 3 [])
                  "WriterAgent" eq_refl)).
Defined.
